(** * Stock-Screener: the moving-average pipeline of [app.py]

    A shallow embedding of [get_stocks_below_ma], [create_charts] and [main]
    together with the properties stated about them.

    Numbers.  Prices and percentages are IEEE doubles in the program.  They
    are modelled by [float64]: an exact rational, or one of the three special
    values a double can take (the two infinities and NaN).  Arithmetic on the
    finite values is exact, so rounding error of the binary format, overflow
    and the sign of zero are outside the model; who raises and who returns a
    special value on a division by zero is inside it.  Rounding to a number
    of decimals rounds the exact value, ties to even: a decimal such as 0.05
    is a tie here, while its binary value in the program lies next to it. *)

From Stdlib Require Import QArith Qround Qabs ZArith List String Ascii Bool Arith.
From Stdlib Require Import Lia Lqa Sorted Permutation.
Import ListNotations.

Set Implicit Arguments.

Local Open Scope Q_scope.

(** ** Numbers *)

Module Float.

Inductive float64 : Type :=
| Fin (q : Q)
| Inf (negative : bool)
| NaN.

Definition Qneg (q : Q) : bool := Qle_bool q 0 && negb (Qeq_bool q 0).
Definition Qzero (q : Q) : bool := Qeq_bool q 0.

Definition is_zero (x : float64) : bool :=
  match x with Fin q => Qzero q | _ => false end.

Definition is_nan (x : float64) : bool :=
  match x with NaN => true | _ => false end.

(** [x - y] *)
Definition sub (x y : float64) : float64 :=
  match x, y with
  | NaN, _ | _, NaN => NaN
  | Fin a, Fin b => Fin (a - b)
  | Fin _, Inf s => Inf (negb s)
  | Inf s, Fin _ => Inf s
  | Inf s, Inf t => if Bool.eqb s t then NaN else Inf s
  end.

(** [x * y] *)
Definition mul (x y : float64) : float64 :=
  match x, y with
  | NaN, _ | _, NaN => NaN
  | Fin a, Fin b => Fin (a * b)
  | Fin a, Inf s => if Qzero a then NaN else Inf (xorb (Qneg a) s)
  | Inf s, Fin b => if Qzero b then NaN else Inf (xorb s (Qneg b))
  | Inf s, Inf t => Inf (xorb s t)
  end.

(** [x / y] as the hardware does it: a zero divisor gives an infinity, or
    NaN for [0 / 0]; nothing is raised. *)
Definition ieee_div (x y : float64) : float64 :=
  match x, y with
  | NaN, _ | _, NaN => NaN
  | Fin a, Fin b =>
      if Qzero b then (if Qzero a then NaN else Inf (Qneg a))
      else Fin (a / b)
  | Fin _, Inf _ => Fin 0
  | Inf s, Fin b => Inf (xorb s (Qneg b))
  | Inf _, Inf _ => NaN
  end.

(** [x < y], [x >= y], [x <= y]: every comparison with NaN is false. *)
Definition ltb (x y : float64) : bool :=
  match x, y with
  | NaN, _ | _, NaN => false
  | Fin a, Fin b => Qle_bool a b && negb (Qeq_bool a b)
  | Fin _, Inf s => negb s
  | Inf s, Fin _ => s
  | Inf s, Inf t => s && negb t
  end.

Definition leb (x y : float64) : bool :=
  match x, y with
  | NaN, _ | _, NaN => false
  | Fin a, Fin b => Qle_bool a b
  | Fin _, Inf s => negb s
  | Inf s, Fin _ => s
  | Inf s, Inf t => s || negb t
  end.

Definition geb (x y : float64) : bool := leb y x.

Definition of_Z (z : Z) : float64 := Fin (inject_Z z).

(** Rounding a rational to the nearest integer, ties to the even one. *)
Definition round_half_even (q : Q) : Z :=
  let f := Qfloor q in
  match Qcompare (q - inject_Z f) (1 # 2) with
  | Lt => f
  | Gt => (f + 1)%Z
  | Eq => if Z.even f then f else (f + 1)%Z
  end.

(** [round(x, 2)]: the nearest multiple of 1/100; an infinity or NaN is
    returned as it is. *)
Definition round2 (x : float64) : float64 :=
  match x with
  | Fin q => Fin (round_half_even (q * 100) # 100)
  | _ => x
  end.

End Float.
Export Float.

(** ** Exceptions *)

(** A computation that may raise: [Raise msg] is an exception of class
    [Exception] and carries [str(e)].  What [except Exception] does not
    catch (an interrupt, an exit) is outside the model. *)
Inductive result (A : Type) : Type :=
| Ok (a : A)
| Raise (msg : string).

Arguments Ok {A} a.
Arguments Raise {A} msg.

Definition bind {A B : Type} (m : result A) (k : A -> result B) : result B :=
  match m with
  | Ok a => k a
  | Raise msg => Raise msg
  end.

Notation "x <- m ;; k" := (bind m (fun x => k))
  (at level 61, m at next level, right associativity).

(** [x / y] on two Python floats: a zero divisor raises [ZeroDivisionError],
    whatever the dividend. *)
Definition py_div (x y : float64) : result float64 :=
  if is_zero y then Raise "float division by zero" else Ok (ieee_div x y).

(** [x / y] when an operand is a [numpy.float64], as [hist['Close'].iloc[0]]
    is: [numpy.float64] is a subclass of [float] that overrides the reflected
    operators, so [current_price - hist['Close'].iloc[0]] is a
    [numpy.float64] as well and the quotient is NumPy's.  On a zero divisor
    NumPy issues a [RuntimeWarning] and returns the IEEE result; no exception
    is raised. *)
Definition np_div (x y : float64) : float64 := ieee_div x y.

(** ** Strings *)

Local Open Scope string_scope.

Fixpoint starts_with (p s : string) : bool :=
  match p, s with
  | EmptyString, _ => true
  | String a p', String b s' => Ascii.eqb a b && starts_with p' s'
  | String _ _, EmptyString => false
  end.

(** [s.replace(old, new)] for a non-empty [old]: every occurrence, scanning
    from the left; [skip] counts the characters of a match still to drop. *)
Fixpoint replace_from (old new s : string) (skip : nat) : string :=
  match s with
  | EmptyString => EmptyString
  | String c s' =>
      match skip with
      | S k => replace_from old new s' k
      | O =>
          if starts_with old s
          then new ++ replace_from old new s' (String.length old - 1)
          else String c (replace_from old new s' 0)
      end
  end.

Definition replace (old new s : string) : string := replace_from old new s 0.

Definition digit_char (d : Z) : ascii := ascii_of_nat (48 + Z.to_nat d).

Fixpoint digits_loop (fuel : nat) (n : Z) (acc : string) : string :=
  match fuel with
  | O => acc
  | S fuel' =>
      let acc' := String (digit_char (n mod 10)) acc in
      if (n / 10 =? 0)%Z then acc' else digits_loop fuel' (n / 10)%Z acc'
  end.

(** Decimal digits of a non-negative integer. *)
Definition str_Z (n : Z) : string := digits_loop (S (Z.to_nat (Z.log2 n))) n "".
Definition str_nat (n : nat) : string := str_Z (Z.of_nat n).

(** The format [{x:.1f}]: one digit after the point, the exact value rounded
    half to even, the sign kept even when the digits are all zero. *)
Definition format_1f (x : float64) : string :=
  match x with
  | Fin q =>
      let n := round_half_even (Qabs q * 10) in
      (if Qneg q then "-" else "") ++ str_Z (n / 10) ++ "." ++ str_Z (n mod 10)
  | Inf s => if s then "-inf" else "inf"
  | NaN => "nan"
  end.

(** ** Data model *)

(** One day of the fetched history; of its columns the program reads only
    [Close] and [Volume].  Closing prices are finite numbers: a day whose
    close is NaN is outside the model. *)
Module Hist.
Record point : Type := { Close : Q; Volume : Z }.
End Hist.

(** One entry of [results_list], a dictionary with a fixed set of keys
    ([Distance_From_MA_pct] is the key ['Distance_From_MA_%'],
    [Price_Change_pct] the key ['Price_Change_%']). *)
Record row : Type := {
  Symbol : string;
  Name : string;
  Current_Price : float64;
  MA_200 : float64;
  Below_MA : bool;
  Distance_From_MA_pct : float64;
  Volume : Z;
  Price_Change_pct : float64
}.

(** The data provider, as the program sees it: [history yf ticker days] is
    [yf.Ticker(ticker).history(start=now - days, end=now)], and
    [info yf ticker] the ['longName'] entry of [yf.Ticker(ticker).info] when
    there is one.  Either call may raise. *)
Record provider : Type := {
  history : string -> nat -> result (list Hist.point);
  info : string -> result (option string)
}.

(** A bar chart as [create_charts] builds it: its title, the colour of the
    bars, the categories and heights of the bars and the text drawn at each. *)
Record figure : Type := {
  title : string;
  color : string;
  bar_x : list string;
  bar_height : list float64;
  bar_text : list string
}.

(** The calls to the dashboard library, in the order they are made. *)
Inductive st_call : Type :=
| st_title (s : string)
| st_write (s : string)
| st_columns (n : nat)
| st_selectbox (label : string)
| st_spinner (s : string)
| st_progress (v : Q)
| st_progress_empty
| st_error (s : string)
| st_metric (label : string) (value : nat)
| st_subheader (s : string)
| st_tabs (labels : list string)
| st_pyplot (fig : figure)
| st_dataframe (rows : list row).

(** ** The parts of pandas the program uses *)

Definition Qsum (xs : list Q) : Q := fold_right Qplus 0%Q xs.

(** Mean of a window; NaN when the window holds no observation. *)
Definition mean (xs : list Q) : float64 :=
  match xs with
  | [] => NaN
  | _ => Fin (Qsum xs / inject_Z (Z.of_nat (List.length xs)))
  end.

(** [series.iloc[i:j]] *)
Definition iloc_slice {A : Type} (i j : nat) (xs : list A) : list A :=
  firstn (j - i) (skipn i xs).

(** [series.rolling(window=w).mean()]: entry [i] is the mean of the [w]
    entries that end at [i], and NaN as long as fewer than [w] are there. *)
Definition rolling_mean (w : nat) (xs : list Q) : list float64 :=
  map (fun i => if (i + 1 <? w)%nat then NaN
                else mean (iloc_slice (i + 1 - w) (i + 1) xs))
      (seq 0 (List.length xs)).

(** [series.iloc[-1]] and [series.iloc[0]] *)
Definition iloc_last {A : Type} (xs : list A) : result A :=
  match rev xs with
  | x :: _ => Ok x
  | [] => Raise "single positional indexer is out-of-bounds"
  end.

Definition iloc_first {A : Type} (xs : list A) : result A :=
  match xs with
  | x :: _ => Ok x
  | [] => Raise "single positional indexer is out-of-bounds"
  end.

(** Ordering of a column for [sort_values]: NaN goes last in both
    directions. *)
Definition key_leb (ascending : bool) (x y : float64) : bool :=
  is_nan y || (if ascending then leb x y else leb y x).

Section Sort.
Variables (A : Type) (le : A -> A -> bool).

Fixpoint insert_sorted (x : A) (l : list A) : list A :=
  match l with
  | [] => [x]
  | y :: l' => if le x y then x :: l else y :: insert_sorted x l'
  end.

Fixpoint insertion_sort (l : list A) : list A :=
  match l with
  | [] => []
  | x :: l' => insert_sorted x (insertion_sort l')
  end.
End Sort.

(** [df.sort_values(column, ascending=...)].  Only the order contract of the
    library's sort is modelled (the rows come out ordered by the column); the
    order among rows with equal keys is that of an insertion sort. *)
Definition sort_values (key : row -> float64) (ascending : bool)
  (df : list row) : list row :=
  insertion_sort (fun r1 r2 => key_leb ascending (key r1) (key r2)) df.

(** ** [get_nifty_tickers] *)

Definition get_nifty_tickers : list string :=
  [ "RELIANCE.NS"; "TCS.NS"; "HDFCBANK.NS"; "INFY.NS"; "ICICIBANK.NS";
    "HINDUNILVR.NS"; "ITC.NS"; "SBIN.NS"; "BHARTIARTL.NS"; "KOTAKBANK.NS";
    "LT.NS"; "AXISBANK.NS"; "ASIANPAINT.NS"; "MARUTI.NS"; "WIPRO.NS";
    "BAJFINANCE.NS"; "TITAN.NS"; "ULTRACEMCO.NS"; "SUNPHARMA.NS"; "TATAMOTORS.NS";
    "NTPC.NS"; "POWERGRID.NS"; "M&M.NS"; "HCLTECH.NS"; "ADANIENT.NS";
    "BAJAJFINSV.NS"; "ONGC.NS"; "COALINDIA.NS"; "TATASTEEL.NS"; "HINDALCO.NS" ].

(** ** [get_stocks_below_ma] *)

(** The local variables of the [if len(hist) > ma_period] branch, in the
    order they are assigned.  [current_price] and [current_ma] went through
    [float()], so their quotient is a Python division; [hist['Close'].iloc[0]]
    is a [numpy.float64], so the quotient of [price_change] is a NumPy one. *)
Record indicators : Type := {
  current_price : float64;
  current_ma : float64;
  below_ma : bool;
  distance_from_ma : float64;
  volume : Z;
  price_change : float64
}.

Definition compute_indicators (ma_period : nat) (hist : list Hist.point)
  : result indicators :=
  let close := map Hist.Close hist in
  let ma_200 := rolling_mean ma_period close in
  last_close <- iloc_last close ;;
  let current_price := Fin last_close in
  current_ma <- iloc_last ma_200 ;;
  let below_ma := ltb current_price current_ma in
  ratio <- py_div (sub current_price current_ma) current_ma ;;
  let distance_from_ma := mul ratio (of_Z 100) in
  last_point <- iloc_last hist ;;
  let volume := Hist.Volume last_point in
  first_close <- iloc_first close ;;
  let price_change :=
    mul (np_div (sub current_price (Fin first_close)) (Fin first_close))
        (of_Z 100) in
  Ok {| current_price := current_price; current_ma := current_ma;
        below_ma := below_ma; distance_from_ma := distance_from_ma;
        volume := volume; price_change := price_change |}.

(** [ticker.replace('.NS', '')] *)
Definition strip_suffix (ticker : string) : string := replace ".NS" "" ticker.

(** The dictionary appended to [results_list]; building it reads
    [stock.info], which may raise. *)
Definition make_row (yf : provider) (ticker : string) (ind : indicators)
  : result row :=
  long_name <- info yf ticker ;;
  Ok {| Symbol := strip_suffix ticker;
        Name := match long_name with
                | Some n => n
                | None => strip_suffix ticker
                end;
        Current_Price := round2 (current_price ind);
        MA_200 := round2 (current_ma ind);
        Below_MA := below_ma ind;
        Distance_From_MA_pct := round2 (distance_from_ma ind);
        Volume := volume ind;
        Price_Change_pct := round2 (price_change ind) |}.

(** The body of the [try] for one ticker: [Ok (Some r)] when a row is
    appended, [Ok None] when the history is too short, [Raise msg] when an
    exception reaches the handler. *)
Definition process_ticker (yf : provider) (ma_period : nat) (ticker : string)
  : result (option row) :=
  hist <- history yf ticker (ma_period + 100) ;;
  if (ma_period <? List.length hist)%nat then
    ind <- compute_indicators ma_period hist ;;
    r <- make_row yf ticker ind ;;
    Ok (Some r)
  else Ok None.

(** What the loop carries: the rows appended so far and the calls made to the
    dashboard so far. *)
Record loop_state : Type := {
  results_list : list row;
  screen : list st_call
}.

Definition show (c : st_call) (s : loop_state) : loop_state :=
  {| results_list := results_list s; screen := screen s ++ [c] |}.

Definition append_row (r : row) (s : loop_state) : loop_state :=
  {| results_list := results_list s ++ [r]; screen := screen s |}.

Definition error_message (ticker msg : string) : string :=
  "Error processing " ++ ticker ++ ": " ++ msg.

(** One turn of [for idx, ticker in enumerate(tickers)]. *)
Definition loop_body (yf : provider) (ma_period total_tickers : nat)
  (idx : nat) (ticker : string) (s : loop_state) : loop_state :=
  let s1 :=
    match process_ticker yf ma_period ticker with
    | Ok (Some r) => append_row r s
    | Ok None => s
    | Raise msg => show (st_write (error_message ticker msg)) s
    end in
  show (st_progress (Z.of_nat (idx + 1) # Pos.of_nat total_tickers)) s1.

Fixpoint loop (yf : provider) (ma_period total_tickers : nat)
  (idx : nat) (tickers : list string) (s : loop_state) : loop_state :=
  match tickers with
  | [] => s
  | ticker :: rest =>
      loop yf ma_period total_tickers (S idx) rest
        (loop_body yf ma_period total_tickers idx ticker s)
  end.

(** [get_stocks_below_ma(tickers, ma_period)]: the data frame it returns and
    the calls it made to the dashboard. *)
Definition get_stocks_below_ma (yf : provider) (tickers : list string)
  (ma_period : nat) : loop_state :=
  let s0 := {| results_list := []; screen := [st_progress 0] |} in
  show st_progress_empty
    (loop yf ma_period (List.length tickers) 0 tickers s0).

(** ** [create_charts] *)

(** A data frame is the list of its rows, each with all the columns of
    [row].  The frame without any column that [pd.DataFrame([])] builds when
    no row was appended is not among them: [main] returns on it before
    [create_charts] is called. *)

Fixpoint range_loop (fuel i stop step : nat) : list nat :=
  match fuel with
  | O => []
  | S fuel' =>
      if (i <? stop)%nat then i :: range_loop fuel' (i + step) stop step
      else []
  end.

(** [range(start, stop, step)] for a step that is not negative; a zero step
    raises [ValueError].  With a step of at least one, [stop - start] turns
    are enough to reach [stop]. *)
Definition range (start stop step : nat) : result (list nat) :=
  if (step =? 0)%nat then Raise "range() arg 3 must not be zero"
  else Ok (range_loop (stop - start) start stop step).

(** The two row filters, [df[df['Distance_From_MA_%'] >= 0]] and
    [df[df['Distance_From_MA_%'] < 0]]. *)
Definition is_above (r : row) : bool := geb (Distance_From_MA_pct r) (of_Z 0).
Definition is_below (r : row) : bool := ltb (Distance_From_MA_pct r) (of_Z 0).

Definition above_title (group : nat) : string :=
  "Indian Stocks Above 200-day MA (Group " ++ str_nat group ++ ")".
Definition below_title (group : nat) : string :=
  "Indian Stocks Below 200-day MA (Group " ++ str_nat group ++ ")".

Definition above_text (height : float64) : string :=
  "+" ++ format_1f height ++ "%".
Definition below_text (height : float64) : string :=
  format_1f height ++ "%".

(** The body of the two [for i in range(0, len(df), stocks_per_chart)]
    loops: one figure for the slice that starts at [i]. *)
Definition chart_of (mk_title : nat -> string) (colour : string)
  (mk_text : float64 -> string) (df : list row) (stocks_per_chart i : nat)
  : figure :=
  let chunk := iloc_slice i (i + stocks_per_chart) df in
  {| title := mk_title (i / stocks_per_chart + 1)%nat;
     color := colour;
     bar_x := map Symbol chunk;
     bar_height := map Distance_From_MA_pct chunk;
     bar_text := map (fun r => mk_text (Distance_From_MA_pct r)) chunk |}.

Definition charts_of (mk_title : nat -> string) (colour : string)
  (mk_text : float64 -> string) (df : list row) (stocks_per_chart : nat)
  : result (list figure) :=
  starts <- range 0 (List.length df) stocks_per_chart ;;
  Ok (map (chart_of mk_title colour mk_text df stocks_per_chart) starts).

Definition above_df (analysis_df : list row) : list row :=
  sort_values Distance_From_MA_pct true (filter is_above analysis_df).
Definition below_df (analysis_df : list row) : list row :=
  sort_values Distance_From_MA_pct true (filter is_below analysis_df).

Definition create_charts (analysis_df : list row) (stocks_per_chart : nat)
  : result (list figure * list figure) :=
  above_charts <-
    charts_of above_title "#2ecc71" above_text (above_df analysis_df)
      stocks_per_chart ;;
  below_charts <-
    charts_of below_title "#e74c3c" below_text (below_df analysis_df)
      stocks_per_chart ;;
  Ok (above_charts, below_charts).

(** ** [main] *)

(** What the user picked in the four select boxes; each box offers a fixed
    list of options. *)
Inductive per_chart_option := Per10 | Per15 | Per20 | Per25 | Per30.
Inductive period_option := Days50 | Days100 | Days200.
Inductive filter_option := All | AboveMA | BelowMA.
Inductive sort_option :=
  ByDistance | ByCurrentPrice | ByVolume | ByPriceChange.

Definition per_chart_value (o : per_chart_option) : nat :=
  match o with
  | Per10 => 10 | Per15 => 15 | Per20 => 20 | Per25 => 25 | Per30 => 30
  end%nat.

Definition period_value (o : period_option) : nat :=
  match o with Days50 => 50 | Days100 => 100 | Days200 => 200 end%nat.

(** The column a sort option names; [Volume] is an integer column and is
    compared through its embedding in the numbers. *)
Definition sort_column (o : sort_option) (r : row) : float64 :=
  match o with
  | ByDistance => Distance_From_MA_pct r
  | ByCurrentPrice => Current_Price r
  | ByVolume => of_Z (Volume r)
  | ByPriceChange => Price_Change_pct r
  end.

Record user_input : Type := {
  stocks_per_page : per_chart_option;
  chosen_period : period_option;
  chosen_filter : filter_option;
  sort_by : sort_option
}.

Definition group_labels (n : nat) : list string :=
  map (fun i => "Group " ++ str_nat (i + 1)) (seq 0 n).

(** [if charts: st.subheader(...); tabs; st.pyplot per chart] *)
Definition show_charts (heading : string) (charts : list figure)
  : list st_call :=
  match charts with
  | [] => []
  | _ => st_subheader heading
         :: st_tabs (group_labels (List.length charts))
         :: map st_pyplot charts
  end.

Definition no_data_message : string :=
  "No data available. Please check your internet connection or try again later.".

(** The part of [main] after the [if df.empty] test.  [create_charts] is
    called after the three metrics are shown; it cannot raise on a chunk size
    of the select box, so the calls made before a raise need no place in the
    result. *)
Definition render (df : list row) (ui : user_input)
  : result (list st_call) :=
  charts <- create_charts df (per_chart_value (stocks_per_page ui)) ;;
  let filtered_df :=
    match chosen_filter ui with
    | All => df
    | AboveMA => filter is_above df
    | BelowMA => filter is_below df
    end in
  Ok ([ st_columns 3;
        st_metric "Total Stocks" (List.length df);
        st_metric "Stocks Above MA" (List.length (filter is_above df));
        st_metric "Stocks Below MA" (List.length (filter is_below df)) ]
      ++ show_charts "Stocks Trading Above MA" (fst charts)
      ++ show_charts "Stocks Trading Below MA" (snd charts)
      ++ [ st_subheader "Detailed Stock Data";
           st_columns 2;
           st_selectbox "Filter by";
           st_selectbox "Sort by";
           st_dataframe
             (sort_values (sort_column (sort_by ui)) false filtered_df) ])%list.

(** [main()]: every call made to the dashboard, in order. *)
Definition main (yf : provider) (ui : user_input) : result (list st_call) :=
  let ma_period := period_value (chosen_period ui) in
  let tickers := get_nifty_tickers in
  let fetched := get_stocks_below_ma yf tickers ma_period in
  let df := results_list fetched in
  let head :=
    ([ st_title "Indian Stock Market Health Analysis";
       st_write "Analysis of NSE stocks relative to their 200-day Moving Average";
       st_columns 2;
       st_selectbox "Stocks per chart";
       st_selectbox "Moving Average Period (days)";
       st_spinner "Fetching data and calculating moving averages..." ]
     ++ screen fetched)%list in
  match df with
  | [] => Ok (head ++ [st_error no_data_message])%list
  | _ => rest <- render df ui ;; Ok (head ++ rest)%list
  end.

(** * Vocabulary of the statements *)

(** The last [k] entries of a series. *)
Definition lastn {A : Type} (k : nat) (xs : list A) : list A :=
  skipn (List.length xs - k) xs.

Definition no_point : Hist.point := {| Hist.Close := 0; Hist.Volume := 0 |}.

(** The closing prices of a history, the last and the first of them, and the
    mean of the last [ma_period] of them. *)
Definition closes (hist : list Hist.point) : list Q := map Hist.Close hist.
Definition last_close (hist : list Hist.point) : Q := last (closes hist) 0.
Definition first_close (hist : list Hist.point) : Q := hd 0 (closes hist).
Definition trailing_mean (ma_period : nat) (hist : list Hist.point) : float64 :=
  mean (lastn ma_period (closes hist)).

(** What one ticker contributes to a run: its row, or its error message. *)
Definition row_of (yf : provider) (ma_period : nat) (ticker : string)
  : list row :=
  match process_ticker yf ma_period ticker with
  | Ok (Some r) => [r]
  | _ => []
  end.

Definition error_of (yf : provider) (ma_period : nat) (ticker : string)
  : list string :=
  match process_ticker yf ma_period ticker with
  | Raise msg => [error_message ticker msg]
  | _ => []
  end.

Definition produces_row (yf : provider) (ma_period : nat) (ticker : string)
  : Prop :=
  exists r, process_ticker yf ma_period ticker = Ok (Some r).

(** The messages written to the dashboard with [st.write]. *)
Definition written (calls : list st_call) : list string :=
  flat_map (fun c => match c with st_write s => [s] | _ => [] end) calls.

(** A provider that answers every request with the same history and has no
    display name, and a history of constant price. *)
Definition constant_provider (hist : list Hist.point) : provider :=
  {| history := fun _ _ => Ok hist; info := fun _ => Ok None |}.

Definition flat_history (price : Q) (days : nat) : list Hist.point :=
  repeat {| Hist.Close := price; Hist.Volume := 1000 |} days.

(** Positive prices, as quoted prices are. *)
Definition positive_closes (hist : list Hist.point) : Prop :=
  Forall (fun p => 0 < Hist.Close p) hist.

(** Fifty days at 100.004 and a last day at 100: the price ends 0.0039%
    under its 50-day average. *)
Definition barely_below_history : list Hist.point :=
  (flat_history (100004 # 1000) 50 ++ flat_history 100 1)%list.

(** The arithmetic mean of the last [P] closing prices, as the
    specification words the moving average. *)
Definition spec_MovingAverage (P : nat) (close : list Q) : Q :=
  Qsum (lastn P close) / inject_Z (Z.of_nat P).

Definition is_finite (x : float64) : bool :=
  match x with Fin _ => true | _ => false end.

(** Two rows carry the same numbers. *)
Definition same_numbers (r1 r2 : row) : Prop :=
  Current_Price r1 = Current_Price r2
  /\ MA_200 r1 = MA_200 r2
  /\ Below_MA r1 = Below_MA r2
  /\ Distance_From_MA_pct r1 = Distance_From_MA_pct r2
  /\ Volume r1 = Volume r2
  /\ Price_Change_pct r1 = Price_Change_pct r2.

(** A first day at price 0 followed by fifty days at 100. *)
Definition zero_first_close_history : list Hist.point :=
  (flat_history 0 1 ++ flat_history 100 50)%list.

(** A ticker is processed without raising, on a history longer than the
    period. *)
Definition succeeds_with_sufficient_history (yf : provider) (P : nat)
  (ticker : string) : Prop :=
  exists hist,
    history yf ticker (P + 100) = Ok hist
    /\ (P < List.length hist)%nat
    /\ forall msg, process_ticker yf P ticker <> Raise msg.

(** A ticker whose fetch raises, or whose history is too short. *)
Definition fails_or_is_excluded (yf : provider) (P : nat) (ticker : string)
  : Prop :=
  (exists msg, history yf ticker (P + 100) = Raise msg)
  \/ (exists hist, history yf ticker (P + 100) = Ok hist
                   /\ (List.length hist <= P)%nat).

(** The calls that render the summary metrics, the charts and the table. *)
Definition is_rendering (c : st_call) : bool :=
  match c with
  | st_metric _ _ | st_subheader _ | st_tabs _ | st_pyplot _
  | st_dataframe _ => true
  | _ => false
  end.

(** The calls made by the fetch loop. *)
Definition is_loop_call (c : st_call) : bool :=
  match c with
  | st_progress _ | st_progress_empty | st_write _ => true
  | _ => false
  end.

(** A provider whose fetch raises for one ticker and returns 51 days at
    price 100 for every other, and one whose fetch always raises. *)
Definition provider_failing_on (bad : string) : provider :=
  {| history := fun t _ => if String.eqb t bad then Raise "connection reset"
                           else Ok (flat_history 100 51);
     info := fun _ => Ok None |}.

Definition unreachable_provider : provider :=
  {| history := fun _ _ => Raise "connection reset";
     info := fun _ => Raise "connection reset" |}.

(** [x <= y] on numbers, as a relation. *)
Definition fle (x y : float64) : Prop := leb x y = true.

(** The bars of a figure: category and height. *)
Definition bars (fig : figure) : list (string * float64) :=
  combine (bar_x fig) (bar_height fig).

Definition bar_of_row (r : row) : string * float64 :=
  (Symbol r, Distance_From_MA_pct r).

(** The number of chunks for [S] rows in chunks of [K]. *)
Definition ceil_div (S K : nat) : nat :=
  (S / K + (if (S mod K =? 0)%nat then 0 else 1))%nat.

(** The chunk sizes the specification asks for: [ceil(S/K)] chunks, all but
    the last of [K] members, the last of [S mod K] members when that is not
    zero, and none at all for no rows. *)
Definition chunked (K S : nat) (figs : list figure) : Prop :=
  List.length figs = ceil_div S K
  /\ (forall i fig, nth_error figs i = Some fig ->
                    (i + 1 < List.length figs)%nat ->
                    List.length (bars fig) = K)
  /\ (forall fig, nth_error figs (List.length figs - 1) = Some fig ->
                  (S mod K <> 0)%nat ->
                  List.length (bars fig) = (S mod K)%nat)
  /\ (S = 0%nat -> figs = []).

(** The order the specification asks of the chunks of one subset: the
    heights are non-decreasing through the whole subset and within each
    chunk, and the last height of a chunk is at most the first height of the
    next chunk. *)
Definition chunks_in_order (figs : list figure) : Prop :=
  StronglySorted fle (flat_map bar_height figs)
  /\ Forall (fun fig => StronglySorted fle (bar_height fig)) figs
  /\ forall i f g x y,
       nth_error figs i = Some f -> nth_error figs (S i) = Some g ->
       iloc_last (bar_height f) = Ok x -> iloc_first (bar_height g) = Ok y ->
       fle x y.

(** The chunk sizes offered by the select box. *)
Definition chunk_sizes : list nat := [10; 15; 20; 25; 30]%nat.

(** A small data frame: two stocks above their average and two below. *)
Definition sample_row (symbol : string) (hundredths : Z) : row :=
  {| Symbol := symbol; Name := symbol;
     Current_Price := Fin 100; MA_200 := Fin 100;
     Below_MA := (hundredths <? 0)%Z;
     Distance_From_MA_pct := Fin (hundredths # 100);
     Volume := 1000; Price_Change_pct := Fin 0 |}.

Definition sample_df : list row :=
  [ sample_row "TCS" 526; sample_row "INFY" (-310);
    sample_row "ITC" 12; sample_row "SBIN" (-8) ].

(** The scenario of the specification: 210 daily closes, the last one 100,
    the mean of the last 200 equal to 95. *)
Definition scenario_history : list Hist.point :=
  (flat_history 90 10 ++ flat_history 95 189 ++ flat_history (945 # 10) 10
   ++ flat_history 100 1)%list.

(** The values reported to the progress bar, in order. *)
Definition progress_values (calls : list st_call) : list Q :=
  flat_map (fun c => match c with st_progress v => [v] | _ => [] end) calls.

(** The ticker gets a row. *)
Definition has_row (yf : provider) (ma_period : nat) (ticker : string)
  : bool :=
  match process_ticker yf ma_period ticker with
  | Ok (Some _) => true
  | _ => false
  end.

(** A provider whose name lookup raises. *)
Definition provider_without_info (hist : list Hist.point) : provider :=
  {| history := fun _ _ => Ok hist;
     info := fun _ => Raise "HTTP Error 401: Unauthorized" |}.

(** No character of the string is a dot. *)
Fixpoint no_dot (s : string) : bool :=
  match s with
  | EmptyString => true
  | String c s' => negb (Ascii.eqb c ".") && no_dot s'
  end.

(** The label and value of each metric tile shown, in order. *)
Definition metric_values (calls : list st_call) : list (string * nat) :=
  flat_map (fun c => match c with st_metric l v => [(l, v)] | _ => [] end)
           calls.

(** The rows the table shows for a choice of the filter box. *)
Definition filtered_rows (o : filter_option) (df : list row) : list row :=
  match o with
  | All => df
  | AboveMA => filter is_above df
  | BelowMA => filter is_below df
  end.

(** The figures passed to [st.pyplot], in order. *)
Definition plotted (calls : list st_call) : list figure :=
  flat_map (fun c => match c with st_pyplot f => [f] | _ => [] end) calls.

(** The data frame [main] works on, and the calls it makes up to the
    [if df.empty] test. *)
Definition analysis (yf : provider) (ui : user_input) : list row :=
  results_list
    (get_stocks_below_ma yf get_nifty_tickers
       (period_value (chosen_period ui))).

Definition fetch_calls (yf : provider) (ui : user_input) : list st_call :=
  ([ st_title "Indian Stock Market Health Analysis";
     st_write "Analysis of NSE stocks relative to their 200-day Moving Average";
     st_columns 2;
     st_selectbox "Stocks per chart";
     st_selectbox "Moving Average Period (days)";
     st_spinner "Fetching data and calculating moving averages..." ]
   ++ screen (get_stocks_below_ma yf get_nifty_tickers
                (period_value (chosen_period ui))))%list.

(** Calls that are neither a metric tile, nor a figure, nor the error box,
    nor the table. *)
Definition is_plain (c : st_call) : bool :=
  match c with
  | st_metric _ _ | st_pyplot _ | st_error _ | st_dataframe _ => false
  | _ => true
  end.

(** The order of the table: non-increasing in the column, NaN last. *)
Definition descending (key : row -> float64) (r1 r2 : row) : Prop :=
  is_nan (key r2) = true \/ fle (key r2) (key r1).

(** The messages shown in error boxes and the tables shown, in order. *)
Definition error_boxes (calls : list st_call) : list string :=
  flat_map (fun c => match c with st_error s => [s] | _ => [] end) calls.

Definition tables (calls : list st_call) : list (list row) :=
  flat_map (fun c => match c with st_dataframe rows => [rows] | _ => [] end)
           calls.

Definition default_choices : user_input :=
  {| stocks_per_page := Per15; chosen_period := Days50;
     chosen_filter := BelowMA; sort_by := ByDistance |}.

(** The closes the moving average is taken over. *)
Definition window (P : nat) (hist : list Hist.point) : list Q :=
  lastn P (closes hist).

(** Fifty days of rising prices, from 51 to 100, after a first day at 50. *)
Definition rising_history : list Hist.point :=
  map (fun i => {| Hist.Close := inject_Z (Z.of_nat (50 + i));
                   Hist.Volume := 1000 |}) (seq 0 51).

(** The stored distance of the row is a number, not NaN. *)
Definition has_distance (r : row) : bool :=
  negb (is_nan (Distance_From_MA_pct r)).

(** A row whose average and distance are NaN, and a data frame that holds
    one beside the rows of [sample_df]. *)
Definition nan_row (symbol : string) : row :=
  {| Symbol := symbol; Name := symbol;
     Current_Price := Fin 100; MA_200 := NaN;
     Below_MA := false;
     Distance_From_MA_pct := NaN;
     Volume := 1000; Price_Change_pct := Fin 0 |}.

Definition mixed_df : list row := (sample_df ++ [nan_row "LT"])%list.

(** * Properties *)

Unset Implicit Arguments.

(** ** Rounding *)

Lemma round_half_even_comp (p q : Q) :
  p == q -> round_half_even p = round_half_even q.
Proof.
  intros E. unfold round_half_even.
  rewrite (Qfloor_comp _ _ E).
  assert (C : Qcompare (p - inject_Z (Qfloor q)) (1 # 2)
              = Qcompare (q - inject_Z (Qfloor q)) (1 # 2))
    by (rewrite E; reflexivity).
  now rewrite C.
Qed.

Lemma round_half_even_upper (q : Q) :
  inject_Z (round_half_even q) <= q + (1 # 2).
Proof.
  unfold round_half_even.
  pose proof (Qfloor_le q) as Hlo.
  pose proof (Qlt_floor q) as Hhi.
  rewrite inject_Z_plus in Hhi. change (inject_Z 1) with 1 in Hhi.
  destruct (Qcompare_spec (q - inject_Z (Qfloor q)) (1 # 2)) as [E|L|G];
    [destruct (Z.even (Qfloor q))| |];
    rewrite ?inject_Z_plus; change (inject_Z 1) with 1;
    generalize dependent (inject_Z (Qfloor q)); intros; lra.
Qed.

Lemma round_half_even_lower (q : Q) :
  q - (1 # 2) <= inject_Z (round_half_even q).
Proof.
  unfold round_half_even.
  pose proof (Qfloor_le q) as Hlo.
  pose proof (Qlt_floor q) as Hhi.
  rewrite inject_Z_plus in Hhi. change (inject_Z 1) with 1 in Hhi.
  destruct (Qcompare_spec (q - inject_Z (Qfloor q)) (1 # 2)) as [E|L|G];
    [destruct (Z.even (Qfloor q))| |];
    rewrite ?inject_Z_plus; change (inject_Z 1) with 1;
    generalize dependent (inject_Z (Qfloor q)); intros; lra.
Qed.

Lemma inject_Z_lt_0 (n : Z) : (n < 0)%Z -> inject_Z n <= -1.
Proof.
  intros H. change (-1) with (inject_Z (-1)). rewrite <- Zle_Qle. lia.
Qed.

Lemma inject_Z_gt_0 (n : Z) : (0 < n)%Z -> 1 <= inject_Z n.
Proof.
  intros H. change 1 with (inject_Z 1). rewrite <- Zle_Qle. lia.
Qed.

(** A value that rounds to a negative integer is negative, and a value that
    rounds to a positive one is positive. *)
Lemma round_half_even_neg (q : Q) : (round_half_even q < 0)%Z -> q < 0.
Proof.
  intros H. pose proof (round_half_even_lower q).
  pose proof (inject_Z_lt_0 _ H).
  generalize dependent (inject_Z (round_half_even q)); intros; lra.
Qed.

Lemma round_half_even_pos (q : Q) : (0 < round_half_even q)%Z -> 0 < q.
Proof.
  intros H. pose proof (round_half_even_upper q).
  pose proof (inject_Z_gt_0 _ H).
  generalize dependent (inject_Z (round_half_even q)); intros; lra.
Qed.


(** ** Series *)

Lemma iloc_last_snoc {A : Type} (xs : list A) (x : A) :
  iloc_last (xs ++ [x]) = Ok x.
Proof. unfold iloc_last. now rewrite rev_app_distr. Qed.

Lemma iloc_last_last {A : Type} (xs : list A) (d : A) :
  xs <> [] -> iloc_last xs = Ok (last xs d).
Proof.
  intros H. destruct (exists_last H) as (ys & y & ->).
  now rewrite iloc_last_snoc, last_last.
Qed.

Lemma iloc_first_hd {A : Type} (xs : list A) (d : A) :
  xs <> [] -> iloc_first xs = Ok (hd d xs).
Proof. destruct xs; [congruence | reflexivity]. Qed.

Lemma iloc_slice_lastn {A : Type} (w : nat) (xs : list A) :
  (w <= List.length xs)%nat ->
  iloc_slice (List.length xs - w) (List.length xs) xs = lastn w xs.
Proof.
  intros H. unfold iloc_slice, lastn.
  apply firstn_all2. rewrite length_skipn. lia.
Qed.

(** The last entry of the rolling mean is the mean of the last [w] entries. *)
Lemma rolling_mean_last (w : nat) (xs : list Q) :
  (w <= List.length xs)%nat -> xs <> [] ->
  iloc_last (rolling_mean w xs) = Ok (mean (lastn w xs)).
Proof.
  intros Hw Hne. unfold rolling_mean.
  destruct (List.length xs) as [|n] eqn:En.
  - destruct xs; [congruence | discriminate].
  - rewrite seq_S, map_app. cbn [map]. rewrite iloc_last_snoc.
    cbn [Nat.add]. replace (n + 1)%nat with (S n) by lia.
    destruct (Nat.ltb_spec (S n) w) as [L|_]; [lia|].
    rewrite <- En. rewrite iloc_slice_lastn by lia. reflexivity.
Qed.

Lemma lastn_length {A : Type} (k : nat) (xs : list A) :
  (k <= List.length xs)%nat -> List.length (lastn k xs) = k.
Proof. intros H. unfold lastn. rewrite length_skipn. lia. Qed.

(** [compute_indicators] on a history that passed the length test, without
    the plumbing: the only thing that can raise is the division by the moving
    average. *)
Lemma compute_indicators_eq (ma_period : nat) (hist : list Hist.point) :
  (ma_period < List.length hist)%nat ->
  compute_indicators ma_period hist =
    let cp := Fin (last_close hist) in
    let cma := trailing_mean ma_period hist in
    if is_zero cma then Raise "float division by zero"
    else Ok {| current_price := cp;
               current_ma := cma;
               below_ma := ltb cp cma;
               distance_from_ma := mul (ieee_div (sub cp cma) cma) (of_Z 100);
               volume := Hist.Volume (last hist no_point);
               price_change :=
                 mul (np_div (sub cp (Fin (first_close hist)))
                             (Fin (first_close hist))) (of_Z 100) |}.
Proof.
  intros Hlen.
  assert (Hne : hist <> []) by (destruct hist; [simpl in Hlen; lia | congruence]).
  assert (Hcne : closes hist <> [])
    by (unfold closes; destruct hist; [congruence | discriminate]).
  unfold compute_indicators. fold (closes hist).
  rewrite (iloc_last_last _ 0 Hcne). cbn [bind].
  rewrite rolling_mean_last
    by (try assumption; unfold closes; rewrite length_map; lia).
  cbn [bind]. fold (trailing_mean ma_period hist). fold (last_close hist).
  unfold py_div. cbv zeta.
  destruct (is_zero (trailing_mean ma_period hist)); [reflexivity|].
  cbn [bind]. rewrite (iloc_last_last _ no_point Hne). cbn [bind].
  rewrite (iloc_first_hd _ 0 Hcne). cbn [bind]. reflexivity.
Qed.

(** ** The per-ticker loop *)

Lemma written_app (xs ys : list st_call) :
  written (xs ++ ys) = (written xs ++ written ys)%list.
Proof. unfold written. apply flat_map_app. Qed.

Lemma loop_body_results yf P total idx ticker s :
  results_list (loop_body yf P total idx ticker s)
  = (results_list s ++ row_of yf P ticker)%list.
Proof.
  unfold loop_body, row_of.
  destruct (process_ticker yf P ticker) as [[r|]|msg]; cbn;
    now rewrite ?app_nil_r.
Qed.

Lemma loop_body_written yf P total idx ticker s :
  written (screen (loop_body yf P total idx ticker s))
  = (written (screen s) ++ error_of yf P ticker)%list.
Proof.
  unfold loop_body, error_of.
  destruct (process_ticker yf P ticker) as [[r|]|msg]; cbn;
    rewrite ?written_app; cbn; now rewrite ?app_nil_r.
Qed.

Lemma loop_results yf P total tickers : forall idx s,
  results_list (loop yf P total idx tickers s)
  = (results_list s ++ flat_map (row_of yf P) tickers)%list.
Proof.
  induction tickers as [|t rest IH]; intros idx s; cbn [loop flat_map].
  - now rewrite app_nil_r.
  - rewrite IH, loop_body_results. now rewrite <- app_assoc.
Qed.

Lemma loop_written yf P total tickers : forall idx s,
  written (screen (loop yf P total idx tickers s))
  = (written (screen s) ++ flat_map (error_of yf P) tickers)%list.
Proof.
  induction tickers as [|t rest IH]; intros idx s; cbn [loop flat_map].
  - now rewrite app_nil_r.
  - rewrite IH, loop_body_written. now rewrite <- app_assoc.
Qed.

(** The data frame holds the rows of the tickers, in the order of the
    tickers; the messages written are the errors of the tickers, in the same
    order. *)
Lemma get_stocks_below_ma_results yf tickers P :
  results_list (get_stocks_below_ma yf tickers P)
  = flat_map (row_of yf P) tickers.
Proof. unfold get_stocks_below_ma. cbn. now rewrite loop_results. Qed.

Lemma get_stocks_below_ma_written yf tickers P :
  written (screen (get_stocks_below_ma yf tickers P))
  = flat_map (error_of yf P) tickers.
Proof.
  unfold get_stocks_below_ma. cbn. rewrite written_app, loop_written. cbn.
  now rewrite app_nil_r.
Qed.

(** ** One ticker *)

Lemma process_ticker_short yf P ticker hist :
  history yf ticker (P + 100) = Ok hist ->
  (List.length hist <= P)%nat ->
  process_ticker yf P ticker = Ok None.
Proof.
  intros Hh Hlen. unfold process_ticker. rewrite Hh. cbn [bind].
  destruct (Nat.ltb_spec P (List.length hist)); [lia | reflexivity].
Qed.

Lemma process_ticker_long yf P ticker hist :
  history yf ticker (P + 100) = Ok hist ->
  (P < List.length hist)%nat ->
  process_ticker yf P ticker =
    (ind <- compute_indicators P hist ;;
     r <- make_row yf ticker ind ;;
     Ok (Some r)).
Proof.
  intros Hh Hlen. unfold process_ticker. rewrite Hh. cbn [bind].
  destruct (Nat.ltb_spec P (List.length hist)); [reflexivity | lia].
Qed.

Lemma process_ticker_fetch_error yf P ticker msg :
  history yf ticker (P + 100) = Raise msg ->
  process_ticker yf P ticker = Raise msg.
Proof. intros Hh. unfold process_ticker. now rewrite Hh. Qed.

(** A row as the dictionary spells it out, from the indicators and the
    answer of the name lookup. *)
Lemma process_ticker_row yf P ticker hist r :
  history yf ticker (P + 100) = Ok hist ->
  process_ticker yf P ticker = Ok (Some r) ->
  (P < List.length hist)%nat /\
  exists ind, compute_indicators P hist = Ok ind
              /\ make_row yf ticker ind = Ok r.
Proof.
  intros Hh Hr.
  destruct (Nat.ltb_spec P (List.length hist)) as [L|G].
  - split; [assumption|].
    rewrite (process_ticker_long _ _ _ _ Hh L) in Hr.
    destruct (compute_indicators P hist) as [ind|]; [|discriminate].
    cbn [bind] in Hr.
    destruct (make_row yf ticker ind) as [r'|] eqn:Er; [|discriminate].
    cbn [bind] in Hr. exists ind. split; congruence.
  - rewrite (process_ticker_short _ _ _ _ Hh G) in Hr. discriminate.
Qed.

(** ** C1: which symbols get a row *)

(** C1, as stated, fails: a fetched history longer than the period does not
    always give a row.  Fifty-one days at price 0 with a period of 50 pass
    the length test, the moving average is 0, the division raises and the
    handler writes a message instead of appending a row. *)
Lemma C1_long_history_without_row :
  let hist := flat_history 0 51 in
  let yf := constant_provider hist in
  history yf "TCS.NS" (50 + 100) = Ok hist
  /\ ~ (produces_row yf 50 "TCS.NS" <-> (50 < List.length hist)%nat)
  /\ results_list (get_stocks_below_ma yf ["TCS.NS"] 50) = []
  /\ written (screen (get_stocks_below_ma yf ["TCS.NS"] 50))
     = ["Error processing TCS.NS: float division by zero"].
Proof.
  cbv zeta. split; [reflexivity|]. split; [|split; vm_compute; reflexivity].
  intros [_ H].
  assert (L : (50 < List.length (flat_history 0 51))%nat)
    by (vm_compute; lia).
  destruct (H L) as [r Hr]. vm_compute in Hr. discriminate.
Qed.

(** C1, amended: for a period of at least one day and a fetched history, a
    row is produced exactly when the history is longer than the period and
    nothing raises while the row is built, that is, the moving average is not
    zero and the name lookup answers.  A history no longer than the period
    leaves the data frame and the messages as they were: the turn of the loop
    only reports progress. *)
Theorem C1_row_iff_long_history_and_no_exception
  (yf : provider) (P : nat) (ticker : string) (hist : list Hist.point) :
  (0 < P)%nat ->
  history yf ticker (P + 100) = Ok hist ->
  (produces_row yf P ticker <->
     (P < List.length hist)%nat
     /\ is_zero (trailing_mean P hist) = false
     /\ (exists n, info yf ticker = Ok n))
  /\ ((List.length hist <= P)%nat ->
      process_ticker yf P ticker = Ok None
      /\ forall total idx s,
          loop_body yf P total idx ticker s
          = show (st_progress (Z.of_nat (idx + 1) # Pos.of_nat total)) s).
Proof.
  intros _ Hh. split.
  - split.
    + intros [r Hr].
      destruct (process_ticker_row _ _ _ _ _ Hh Hr) as (L & ind & Hi & Hm).
      split; [assumption|].
      rewrite (compute_indicators_eq _ _ L) in Hi. cbv zeta in Hi.
      destruct (is_zero (trailing_mean P hist)); [discriminate|].
      split; [reflexivity|].
      unfold make_row in Hm.
      destruct (info yf ticker) as [n|]; [now exists n | discriminate].
    + intros (L & Hz & n & Hn). unfold produces_row.
      rewrite (process_ticker_long _ _ _ _ Hh L), (compute_indicators_eq _ _ L).
      cbv zeta. rewrite Hz. cbn [bind]. unfold make_row. rewrite Hn.
      cbn [bind]. eexists. reflexivity.
  - intros G. pose proof (process_ticker_short _ _ _ _ Hh G) as E.
    split; [assumption|]. intros total idx s. unfold loop_body. now rewrite E.
Qed.

Lemma C1_witness :
  produces_row (constant_provider (flat_history 100 51)) 50 "TCS.NS".
Proof.
  apply (proj1 (C1_row_iff_long_history_and_no_exception
                  (constant_provider (flat_history 100 51)) 50 "TCS.NS"
                  (flat_history 100 51) (Nat.lt_0_succ 49) eq_refl)).
  split; [vm_compute; lia|]. split; [reflexivity|].
  exists None. reflexivity.
Defined.

(** ** C2: the flag and the sign of the stored distance *)

Lemma ltb_hundredths (n : Z) : ltb (Fin (n # 100)) (of_Z 0) = (n <? 0)%Z.
Proof.
  unfold ltb, of_Z, Qle_bool, Qeq_bool, inject_Z; cbn. rewrite Z.mul_1_r.
  destruct (Z.leb_spec n 0), (Z.ltb_spec n 0), (Z.eqb_spec n 0); cbn;
    try reflexivity; lia.
Qed.

Lemma geb_hundredths (n : Z) : geb (Fin (n # 100)) (of_Z 0) = (0 <=? n)%Z.
Proof.
  unfold geb, leb, of_Z, Qle_bool, inject_Z; cbn. now rewrite Z.mul_1_r.
Qed.

Lemma is_zero_hundredths (n : Z) : is_zero (Fin (n # 100)) = (n =? 0)%Z.
Proof.
  unfold is_zero, Qzero, Qeq_bool; cbn. now rewrite Z.mul_1_r.
Qed.

Lemma ltb_Fin (a b : Q) : ltb (Fin a) (Fin b) = true <-> a < b.
Proof.
  cbn. rewrite andb_true_iff, negb_true_iff, Qle_bool_iff. split.
  - intros [L N]. apply Qeq_bool_neq in N. apply Qle_lteq in L.
    destruct L as [L|E]; [assumption | contradiction].
  - intros L. split; [now apply Qlt_le_weak|].
    destruct (Qeq_bool a b) eqn:E; [|reflexivity].
    apply Qeq_bool_eq in E. rewrite E in L. now apply Qlt_irrefl in L.
Qed.

Lemma is_zero_Fin (a : Q) : is_zero (Fin a) = false <-> ~ a == 0.
Proof.
  cbn. unfold Qzero. split.
  - apply Qeq_bool_neq.
  - intros N. destruct (Qeq_bool a 0) eqn:E; [|reflexivity].
    now apply Qeq_bool_eq in E.
Qed.

Lemma Forall_skipn {A : Type} (P : A -> Prop) (xs : list A) : forall n,
  Forall P xs -> Forall P (skipn n xs).
Proof.
  induction xs as [|x xs IH]; intros [|n] H; cbn; try assumption.
  inversion H; subst. now apply IH.
Qed.

Lemma Qsum_pos (xs : list Q) :
  Forall (fun x => 0 < x) xs -> xs <> [] -> 0 < Qsum xs.
Proof.
  induction 1 as [|x xs Hx _ IH]; intros Hne; [congruence|].
  cbv beta in Hx. change (0 < x + Qsum xs). destruct xs as [|y ys].
  - cbn. lra.
  - assert (0 < Qsum (y :: ys)) by (apply IH; discriminate). lra.
Qed.

(** The mean of a non-empty window is the sum over the number of entries. *)
Lemma mean_Fin (xs : list Q) :
  xs <> [] ->
  mean xs = Fin (Qsum xs / inject_Z (Z.of_nat (List.length xs))).
Proof. destruct xs; [congruence | reflexivity]. Qed.

Lemma trailing_mean_Fin (P : nat) (hist : list Hist.point) :
  (0 < P)%nat -> (P <= List.length hist)%nat ->
  trailing_mean P hist
  = Fin (Qsum (lastn P (closes hist)) / inject_Z (Z.of_nat P)).
Proof.
  intros HP Hlen. unfold trailing_mean.
  assert (HL : List.length (lastn P (closes hist)) = P)
    by (apply lastn_length; unfold closes; rewrite length_map; lia).
  rewrite mean_Fin.
  - now rewrite HL.
  - intros E. rewrite E in HL. cbn in HL. lia.
Qed.

Lemma inject_Z_pos (n : nat) : (0 < n)%nat -> 0 < inject_Z (Z.of_nat n).
Proof.
  intros H. change 0 with (inject_Z 0). rewrite <- Zlt_Qlt. lia.
Qed.

(** With positive closing prices the moving average is positive. *)
Lemma trailing_mean_pos (P : nat) (hist : list Hist.point) :
  (0 < P)%nat -> (P <= List.length hist)%nat ->
  Forall (fun p => 0 < Hist.Close p) hist ->
  exists m, trailing_mean P hist = Fin m /\ 0 < m.
Proof.
  intros HP Hlen Hpos. rewrite trailing_mean_Fin by assumption.
  eexists. split; [reflexivity|].
  assert (HL : List.length (lastn P (closes hist)) = P)
    by (apply lastn_length; unfold closes; rewrite length_map; lia).
  apply Qlt_shift_div_l; [now apply inject_Z_pos|]. rewrite Qmult_0_l.
  apply Qsum_pos.
  - apply Forall_skipn. unfold closes. now rewrite Forall_map.
  - intros E. rewrite E in HL. cbn in HL. lia.
Qed.

(** Sign of the exact distance [(c - m) / m * 100] for a positive [m]. *)
Lemma distance_negative (c m : Q) :
  0 < m -> c < m -> (c - m) / m * inject_Z 100 * 100 < 0.
Proof.
  intros Hm Hc.
  assert (H : (c - m) / m < 0) by (apply Qlt_shift_div_r; lra).
  change (inject_Z 100) with 100. lra.
Qed.

Lemma distance_not_negative (c m : Q) :
  0 < m -> ~ c < m -> 0 <= (c - m) / m * inject_Z 100 * 100.
Proof.
  intros Hm Hc.
  assert (H : 0 <= (c - m) / m) by (apply Qle_shift_div_l; lra).
  change (inject_Z 100) with 100. lra.
Qed.

(** The flag and the stored distance of a row, in closed form, when the
    prices are positive. *)
Lemma row_flag_and_distance yf P ticker hist r :
  (0 < P)%nat ->
  history yf ticker (P + 100) = Ok hist ->
  positive_closes hist ->
  process_ticker yf P ticker = Ok (Some r) ->
  exists c m,
    0 < m
    /\ Below_MA r = ltb (Fin c) (Fin m)
    /\ Distance_From_MA_pct r
       = Fin (round_half_even ((c - m) / m * inject_Z 100 * 100) # 100).
Proof.
  intros HP Hh Hpos Hr.
  destruct (process_ticker_row _ _ _ _ _ Hh Hr) as (L & ind & Hi & Hm).
  destruct (trailing_mean_pos P hist HP (Nat.lt_le_incl _ _ L) Hpos)
    as (m & Em & Hmpos).
  assert (Zm : Qzero m = false).
  { apply (proj2 (is_zero_Fin m)). intros E. rewrite E in Hmpos.
    now apply Qlt_irrefl in Hmpos. }
  rewrite (compute_indicators_eq _ _ L) in Hi. cbv zeta in Hi.
  rewrite Em in Hi. cbn [is_zero] in Hi. rewrite Zm in Hi.
  injection Hi as <-.
  unfold make_row in Hm. destruct (info yf ticker); [|discriminate].
  cbn [bind] in Hm. injection Hm as <-.
  exists (last_close hist), m. split; [assumption|]. split; [reflexivity|].
  cbn. rewrite Zm. reflexivity.
Qed.

(** C2, as stated, fails: with the price 0.0039% under its average the row is
    flagged [Below_MA], its distance is stored as 0.00, the test [< 0] on
    the stored distance is false and the row is drawn in the chart of the
    stocks above the average. *)
Lemma C2_flagged_row_in_above_partition :
  exists r,
    process_ticker (constant_provider barely_below_history) 50 "TCS.NS"
    = Ok (Some r)
    /\ Below_MA r = true
    /\ Distance_From_MA_pct r = Fin (0 # 100)
    /\ is_below r = false
    /\ is_above r = true
    /\ Below_MA r <> is_below r.
Proof.
  eexists. split; [vm_compute; reflexivity|].
  repeat split; try reflexivity. cbn. discriminate.
Qed.

(** C2, amended: for a period of at least one day and positive closing
    prices, the flag of a row equals the test [< 0] on its stored distance
    whenever the stored distance is not zero; in every case a row that is not
    flagged is in the partition [>= 0], a row in the partition [< 0] is
    flagged, and each row is in exactly one of the two partitions. *)
Theorem C2_flag_matches_sign_of_nonzero_distance
  (yf : provider) (P : nat) (ticker : string) (hist : list Hist.point)
  (r : row) :
  (0 < P)%nat ->
  history yf ticker (P + 100) = Ok hist ->
  positive_closes hist ->
  process_ticker yf P ticker = Ok (Some r) ->
  (is_zero (Distance_From_MA_pct r) = false -> Below_MA r = is_below r)
  /\ (Below_MA r = false -> is_above r = true)
  /\ (is_below r = true -> Below_MA r = true)
  /\ is_above r = negb (is_below r).
Proof.
  intros HP Hh Hpos Hr.
  destruct (row_flag_and_distance _ _ _ _ _ HP Hh Hpos Hr)
    as (c & m & Hm & Hflag & Hdist).
  unfold is_below, is_above. rewrite Hflag, Hdist.
  rewrite ltb_hundredths, geb_hundredths, is_zero_hundredths.
  set (n := round_half_even ((c - m) / m * inject_Z 100 * 100)).
  assert (Hneg : c < m -> (n <= 0)%Z).
  { intros Hc. pose proof (distance_negative c m Hm Hc) as Hx.
    destruct (Z_lt_le_dec 0 n) as [Hn|Hn]; [|assumption].
    apply round_half_even_pos in Hn. lra. }
  assert (Hnonneg : ~ c < m -> (0 <= n)%Z).
  { intros Hc. pose proof (distance_not_negative c m Hm Hc) as Hx.
    destruct (Z_lt_le_dec n 0) as [Hn|Hn]; [|assumption].
    apply round_half_even_neg in Hn. lra. }
  destruct (ltb (Fin c) (Fin m)) eqn:Eflag.
  - apply ltb_Fin in Eflag. specialize (Hneg Eflag).
    repeat split; try reflexivity; try discriminate.
    + intros Hz. apply Z.eqb_neq in Hz. symmetry. apply Z.ltb_lt. lia.
    + destruct (Z.leb_spec 0 n), (Z.ltb_spec n 0); try reflexivity; lia.
  - assert (Hc : ~ c < m).
    { intros Hc. apply ltb_Fin in Hc. congruence. }
    specialize (Hnonneg Hc).
    repeat split.
    + intros _. symmetry. apply Z.ltb_ge. assumption.
    + intros _. now apply Z.leb_le.
    + intros Hb. apply Z.ltb_lt in Hb. lia.
    + destruct (Z.leb_spec 0 n), (Z.ltb_spec n 0); try reflexivity; lia.
Qed.

Lemma C2_witness :
  exists r,
    process_ticker (constant_provider
                      (flat_history 90 50 ++ flat_history 100 1)%list)
                   50 "TCS.NS" = Ok (Some r)
    /\ (is_zero (Distance_From_MA_pct r) = false -> Below_MA r = is_below r).
Proof.
  eexists. split; [vm_compute; reflexivity|].
  refine (proj1 (C2_flag_matches_sign_of_nonzero_distance
           (constant_provider (flat_history 90 50 ++ flat_history 100 1)%list)
           50 "TCS.NS" (flat_history 90 50 ++ flat_history 100 1)%list _
           (Nat.lt_0_succ 49) eq_refl _ _)).
  - unfold positive_closes. repeat constructor.
  - vm_compute. reflexivity.
Defined.

(** ** The numbers of a row *)

(** The row of a history that is longer than a period of at least one day,
    spelled out. *)
Lemma process_ticker_numbers yf P ticker hist r :
  (0 < P)%nat ->
  history yf ticker (P + 100) = Ok hist ->
  process_ticker yf P ticker = Ok (Some r) ->
  let c := last_close hist in
  let m := Qsum (lastn P (closes hist)) / inject_Z (Z.of_nat P) in
  let c0 := first_close hist in
  (P < List.length hist)%nat
  /\ ~ m == 0
  /\ Current_Price r = round2 (Fin c)
  /\ MA_200 r = round2 (Fin m)
  /\ Below_MA r = ltb (Fin c) (Fin m)
  /\ Distance_From_MA_pct r = round2 (Fin ((c - m) / m * 100))
  /\ Volume r = Hist.Volume (last hist no_point)
  /\ Price_Change_pct r
     = round2 (mul (np_div (sub (Fin c) (Fin c0)) (Fin c0)) (of_Z 100)).
Proof.
  intros HP Hh Hr c m c0.
  destruct (process_ticker_row _ _ _ _ _ Hh Hr) as (L & ind & Hi & Hm).
  rewrite (compute_indicators_eq _ _ L) in Hi. cbv zeta in Hi.
  rewrite (trailing_mean_Fin P hist HP (Nat.lt_le_incl _ _ L)) in Hi.
  fold m in Hi.
  destruct (is_zero (Fin m)) eqn:Zm; [discriminate|].
  injection Hi as <-.
  unfold make_row in Hm. destruct (info yf ticker); [|discriminate].
  cbn [bind] in Hm. injection Hm as <-.
  split; [assumption|]. split; [now apply is_zero_Fin|].
  cbn [Current_Price MA_200 Below_MA Distance_From_MA_pct Volume
       Price_Change_pct current_price current_ma below_ma distance_from_ma
       volume price_change].
  repeat split; try reflexivity.
  cbn [is_zero] in Zm. cbn. rewrite Zm. reflexivity.
Qed.

(** ** C9: the numbers depend on the history and the period only *)

(** C9: two runs of the calculator on the same history and period give rows
    with the same stored numbers, whatever the ticker, the provider and the
    display name are; and when the first run gave a row, the second gives one
    as soon as its name lookup answers. *)
Theorem C9_same_history_same_numbers
  (yf1 yf2 : provider) (P : nat) (t1 t2 : string) (hist : list Hist.point)
  (r1 : row) :
  history yf1 t1 (P + 100) = Ok hist ->
  history yf2 t2 (P + 100) = Ok hist ->
  process_ticker yf1 P t1 = Ok (Some r1) ->
  (forall r2, process_ticker yf2 P t2 = Ok (Some r2) -> same_numbers r1 r2)
  /\ ((exists n, info yf2 t2 = Ok n) -> produces_row yf2 P t2).
Proof.
  intros H1 H2 Hr1.
  destruct (process_ticker_row _ _ _ _ _ H1 Hr1) as (L & ind & Hi & Hm1).
  unfold make_row in Hm1. destruct (info yf1 t1); [|discriminate].
  cbn [bind] in Hm1. injection Hm1 as <-.
  split.
  - intros r2 Hr2.
    destruct (process_ticker_row _ _ _ _ _ H2 Hr2) as (_ & ind2 & Hi2 & Hm2).
    assert (ind2 = ind) by congruence. subst ind2.
    unfold make_row in Hm2. destruct (info yf2 t2); [|discriminate].
    cbn [bind] in Hm2. injection Hm2 as <-.
    repeat split.
  - intros [n Hn]. unfold produces_row.
    rewrite (process_ticker_long _ _ _ _ H2 L), Hi. cbn [bind].
    unfold make_row. rewrite Hn. cbn [bind]. eexists. reflexivity.
Qed.

Lemma C9_witness :
  exists r1 r2,
    process_ticker (constant_provider (flat_history 100 51)) 50 "TCS.NS"
    = Ok (Some r1)
    /\ process_ticker
         {| history := fun _ _ => Ok (flat_history 100 51);
            info := fun _ => Ok (Some "Infosys Limited") |} 50 "INFY.NS"
       = Ok (Some r2)
    /\ same_numbers r1 r2.
Proof.
  eexists. eexists. split; [vm_compute; reflexivity|].
  split; [vm_compute; reflexivity|].
  refine (proj1 (C9_same_history_same_numbers
           (constant_provider (flat_history 100 51))
           {| history := fun _ _ => Ok (flat_history 100 51);
              info := fun _ => Ok (Some "Infosys Limited") |}
           50 "TCS.NS" "INFY.NS" (flat_history 100 51) _
           eq_refl eq_refl _) _ _); vm_compute; reflexivity.
Defined.

(** ** C10: a zero divisor *)

(** C10, as stated, fails for a zero first close: the quotient of
    [price_change] has a [numpy.float64] divisor, NumPy returns an infinity
    and raises nothing, so the row is appended and no message is written. *)
Lemma C10_zero_first_close_gives_row :
  let hist := zero_first_close_history in
  let yf := constant_provider hist in
  (50 < List.length hist)%nat
  /\ first_close hist == 0
  /\ exists r,
       process_ticker yf 50 "TCS.NS" = Ok (Some r)
       /\ Price_Change_pct r = Inf false
       /\ results_list (get_stocks_below_ma yf ["TCS.NS"] 50) = [r]
       /\ written (screen (get_stocks_below_ma yf ["TCS.NS"] 50)) = [].
Proof.
  cbv zeta. split; [vm_compute; lia|]. split; [reflexivity|].
  eexists. split; [vm_compute; reflexivity|].
  repeat split; vm_compute; reflexivity.
Qed.

Lemma nonfinite_times_100 (x : float64) :
  is_finite x = false -> is_finite (round2 (mul x (of_Z 100))) = false.
Proof. destruct x; [discriminate | intros _; reflexivity ..]. Qed.

(** C10, amended: when the history passes the length check and the moving
    average is zero, the division of the distance raises inside the [try]:
    the handler writes one message naming the ticker, no row is appended, the
    turn ends with its progress report and the loop goes on with the next
    ticker.  A zero first close alone raises nothing: when the average is not
    zero and the name lookup answers, the row is produced and its price
    change is not a finite number. *)
Theorem C10_zero_average_is_caught
  (yf : provider) (P : nat) (ticker : string) (hist : list Hist.point) :
  (0 < P)%nat ->
  history yf ticker (P + 100) = Ok hist ->
  (P < List.length hist)%nat ->
  (is_zero (trailing_mean P hist) = true ->
     process_ticker yf P ticker = Raise "float division by zero"
     /\ (forall total idx s,
           loop_body yf P total idx ticker s
           = show (st_progress (Z.of_nat (idx + 1) # Pos.of_nat total))
               (show (st_write (error_message ticker "float division by zero"))
                  s))
     /\ (forall before after,
           results_list (get_stocks_below_ma yf (before ++ ticker :: after) P)
           = (flat_map (row_of yf P) before
              ++ flat_map (row_of yf P) after)%list
           /\ written (screen
                (get_stocks_below_ma yf (before ++ ticker :: after) P))
              = (flat_map (error_of yf P) before
                 ++ error_message ticker "float division by zero"
                 :: flat_map (error_of yf P) after)%list))
  /\ (is_zero (trailing_mean P hist) = false ->
      first_close hist == 0 ->
      (exists n, info yf ticker = Ok n) ->
      exists r, process_ticker yf P ticker = Ok (Some r)
                /\ is_finite (Price_Change_pct r) = false).
Proof.
  intros HP Hh L. split.
  - intros Hz.
    assert (E : process_ticker yf P ticker = Raise "float division by zero").
    { rewrite (process_ticker_long _ _ _ _ Hh L),
        (compute_indicators_eq _ _ L). cbv zeta. now rewrite Hz. }
    split; [assumption|]. split.
    + intros total idx s. unfold loop_body. now rewrite E.
    + intros before after.
      rewrite get_stocks_below_ma_results, get_stocks_below_ma_written.
      rewrite !flat_map_app. cbn [flat_map].
      unfold row_of at 2, error_of at 2. rewrite E. split; reflexivity.
  - intros Hz H0 [n Hn].
    rewrite (process_ticker_long _ _ _ _ Hh L), (compute_indicators_eq _ _ L).
    cbv zeta. rewrite Hz. cbn [bind]. unfold make_row. rewrite Hn.
    cbn [bind]. eexists. split; [reflexivity|].
    cbn [Price_Change_pct price_change]. apply nonfinite_times_100.
    unfold np_div. cbn [sub ieee_div].
    assert (Z0 : Qzero (first_close hist) = true)
      by (unfold Qzero; now apply Qeq_eq_bool).
    rewrite Z0.
    destruct (Qzero (last_close hist - first_close hist)); reflexivity.
Qed.

Lemma C10_witness :
  process_ticker (constant_provider (flat_history 0 51)) 50 "TCS.NS"
  = Raise "float division by zero".
Proof.
  refine (proj1 (proj1 (C10_zero_average_is_caught
           (constant_provider (flat_history 0 51)) 50 "TCS.NS"
           (flat_history 0 51) (Nat.lt_0_succ 49) eq_refl _) _)).
  - vm_compute. lia.
  - vm_compute. reflexivity.
Defined.

(** ** C5: one failing fetch *)

Lemma succeeds_row yf P t :
  succeeds_with_sufficient_history yf P t ->
  exists r, process_ticker yf P t = Ok (Some r).
Proof.
  intros (hist & Hh & L & Hno).
  destruct (process_ticker yf P t) as [[r|]|msg] eqn:E.
  - now exists r.
  - rewrite (process_ticker_long _ _ _ _ Hh L) in E.
    destruct (compute_indicators P hist) as [ind|]; [|discriminate].
    cbn [bind] in E. destruct (make_row yf t ind); discriminate.
  - now destruct (Hno msg).
Qed.

Lemma rows_of_successes yf P (ts : list string) :
  (forall t, In t ts -> succeeds_with_sufficient_history yf P t) ->
  Forall2 (fun t r => process_ticker yf P t = Ok (Some r))
          ts (flat_map (row_of yf P) ts)
  /\ flat_map (error_of yf P) ts = [].
Proof.
  induction ts as [|t ts IH]; intros H; cbn [flat_map].
  - split; [constructor | reflexivity].
  - destruct (succeeds_row yf P t (H t (or_introl eq_refl))) as [r Hr].
    destruct IH as [IH1 IH2]; [intros u Hu; apply H; now right|].
    unfold row_of at 1, error_of at 1. rewrite Hr. cbn [app]. split.
    + now constructor.
    + assumption.
Qed.

Lemma get_stocks_below_ma_last_call yf tickers P :
  last (screen (get_stocks_below_ma yf tickers P)) (st_progress 0)
  = st_progress_empty.
Proof. unfold get_stocks_below_ma, show. cbn [screen]. apply last_last. Qed.

(** C5: when the fetch of one ticker raises and every other ticker is
    processed without raising on a history longer than the period, the only
    message written names the failed ticker, the loop runs to its end, and
    the data frame holds exactly one row per other ticker, in input order. *)
Theorem C5_one_failed_fetch_is_isolated
  (yf : provider) (P : nat) (before after : list string) (bad msg : string) :
  history yf bad (P + 100) = Raise msg ->
  (forall t, In t (before ++ after) ->
             succeeds_with_sufficient_history yf P t) ->
  let run := get_stocks_below_ma yf (before ++ bad :: after) P in
  written (screen run) = [error_message bad msg]
  /\ last (screen run) (st_progress 0) = st_progress_empty
  /\ Forall2 (fun t r => process_ticker yf P t = Ok (Some r))
             (before ++ after) (results_list run)
  /\ List.length (results_list run)
     = (List.length (before ++ bad :: after) - 1)%nat.
Proof.
  intros Hbad Hok run.
  pose proof (process_ticker_fetch_error yf P bad msg Hbad) as Ebad.
  destruct (rows_of_successes yf P (before ++ after) Hok) as [Hrows Herrs].
  rewrite !flat_map_app in Hrows, Herrs.
  apply app_eq_nil in Herrs. destruct Herrs as [Eb Ea].
  assert (Eres : results_list run
                 = (flat_map (row_of yf P) before
                    ++ flat_map (row_of yf P) after)%list).
  { unfold run. rewrite get_stocks_below_ma_results, flat_map_app.
    cbn [flat_map]. unfold row_of at 2. now rewrite Ebad. }
  split; [|split; [|split]].
  - unfold run. rewrite get_stocks_below_ma_written, flat_map_app.
    cbn [flat_map]. unfold error_of at 2. rewrite Ebad, Eb, Ea. reflexivity.
  - apply get_stocks_below_ma_last_call.
  - now rewrite Eres.
  - rewrite Eres. apply Forall2_length in Hrows. rewrite <- Hrows.
    rewrite !length_app. cbn [List.length]. lia.
Qed.

Lemma C5_witness :
  let run := get_stocks_below_ma (provider_failing_on "INFY.NS")
               get_nifty_tickers 50 in
  written (screen run) = ["Error processing INFY.NS: connection reset"]
  /\ List.length (results_list run) = 29%nat.
Proof.
  assert (Hok : forall t,
             In t (firstn 3 get_nifty_tickers ++ skipn 4 get_nifty_tickers) ->
             succeeds_with_sufficient_history
               (provider_failing_on "INFY.NS") 50 t).
  { intros t Hin. exists (flat_history 100 51).
    cbn in Hin.
    repeat (destruct Hin as [<-|Hin];
            [split; [reflexivity|];
             split; [vm_compute; lia | intros m; vm_compute; discriminate]|]).
    destruct Hin. }
  destruct (C5_one_failed_fetch_is_isolated
              (provider_failing_on "INFY.NS") 50
              (firstn 3 get_nifty_tickers) (skipn 4 get_nifty_tickers)
              "INFY.NS" "connection reset" eq_refl Hok)
    as (Hw & _ & _ & Hl).
  split; [exact Hw | exact Hl].
Defined.

(** ** C6: an empty result *)

Lemma excluded_no_row yf P t :
  fails_or_is_excluded yf P t -> row_of yf P t = [].
Proof.
  intros [[msg Hm]|(hist & Hh & Hlen)]; unfold row_of.
  - now rewrite (process_ticker_fetch_error _ _ _ _ Hm).
  - now rewrite (process_ticker_short _ _ _ _ Hh Hlen).
Qed.

Lemma loop_body_calls yf P total idx ticker s :
  Forall (fun c => is_loop_call c = true) (screen s) ->
  Forall (fun c => is_loop_call c = true)
         (screen (loop_body yf P total idx ticker s)).
Proof.
  intros H. unfold loop_body.
  destruct (process_ticker yf P ticker) as [[r|]|msg]; cbn [show screen append_row];
    repeat (apply Forall_app; split); try assumption;
    repeat constructor.
Qed.

Lemma loop_calls yf P total tickers : forall idx s,
  Forall (fun c => is_loop_call c = true) (screen s) ->
  Forall (fun c => is_loop_call c = true)
         (screen (loop yf P total idx tickers s)).
Proof.
  induction tickers as [|t rest IH]; intros idx s H; cbn [loop].
  - assumption.
  - apply IH. now apply loop_body_calls.
Qed.

(** The fetch loop only reports progress and writes error messages. *)
Lemma get_stocks_below_ma_calls yf tickers P :
  Forall (fun c => is_loop_call c = true)
         (screen (get_stocks_below_ma yf tickers P)).
Proof.
  unfold get_stocks_below_ma, show. cbn [screen].
  apply Forall_app. split; [|repeat constructor].
  apply loop_calls. cbn [screen]. repeat constructor.
Qed.

Lemma loop_call_not_rendering (c : st_call) :
  is_loop_call c = true -> is_rendering c = false.
Proof. destruct c; cbn; congruence. Qed.

(** C6: when every ticker fails to fetch or has a history no longer than the
    period, the data frame is empty, [main] ends with the top-level error
    message, and none of its calls renders a metric, a chart or the table. *)
Theorem C6_empty_result_stops_before_rendering
  (yf : provider) (ui : user_input) :
  let P := period_value (chosen_period ui) in
  (forall t, In t get_nifty_tickers -> fails_or_is_excluded yf P t) ->
  results_list (get_stocks_below_ma yf get_nifty_tickers P) = []
  /\ exists calls,
       main yf ui = Ok (calls ++ [st_error no_data_message])%list
       /\ Forall (fun c => is_rendering c = false)
                 (calls ++ [st_error no_data_message])%list.
Proof.
  intros P Hall.
  assert (E : results_list (get_stocks_below_ma yf get_nifty_tickers P) = []).
  { rewrite get_stocks_below_ma_results.
    generalize get_nifty_tickers Hall. intros ts Hts.
    induction ts as [|t ts IH]; [reflexivity|]. cbn [flat_map].
    rewrite (excluded_no_row _ _ _ (Hts t (or_introl eq_refl))).
    apply IH. intros u Hu. apply Hts. now right. }
  split; [assumption|].
  unfold main. fold P. rewrite E.
  eexists. split; [reflexivity|].
  apply Forall_app. split; [|repeat constructor].
  apply Forall_app. split; [repeat constructor|].
  eapply Forall_impl; [|apply get_stocks_below_ma_calls].
  intros c. apply loop_call_not_rendering.
Qed.

Lemma C6_witness :
  exists calls,
    main unreachable_provider
         {| stocks_per_page := Per15; chosen_period := Days200;
            chosen_filter := All; sort_by := ByDistance |}
    = Ok (calls ++ [st_error no_data_message])%list.
Proof.
  destruct (C6_empty_result_stops_before_rendering unreachable_provider
              {| stocks_per_page := Per15; chosen_period := Days200;
                 chosen_filter := All; sort_by := ByDistance |})
    as (_ & calls & Hmain & _).
  - intros t _. left. exists "connection reset". reflexivity.
  - exists calls. exact Hmain.
Defined.

(** ** Sorting *)

Section SortFacts.
Variables (A : Type) (le : A -> A -> bool).
Hypothesis le_total : forall x y, le x y = true \/ le y x = true.
Hypothesis le_trans :
  forall x y z, le x y = true -> le y z = true -> le x z = true.

Lemma insert_sorted_perm (x : A) (l : list A) :
  Permutation (x :: l) (insert_sorted le x l).
Proof.
  induction l as [|y l IH]; cbn.
  - reflexivity.
  - destruct (le x y).
    + reflexivity.
    + rewrite perm_swap. now constructor.
Qed.

Lemma insertion_sort_perm (l : list A) : Permutation l (insertion_sort le l).
Proof.
  induction l as [|x l IH]; cbn.
  - constructor.
  - rewrite <- insert_sorted_perm. now constructor.
Qed.

Lemma insert_sorted_Sorted (x : A) (l : list A) :
  Sorted (fun a b => le a b = true) l ->
  Sorted (fun a b => le a b = true) (insert_sorted le x l).
Proof.
  induction 1 as [|y l Hs IH Hd]; cbn.
  - repeat constructor.
  - destruct (le x y) eqn:E.
    + constructor; [now constructor | now constructor].
    + constructor; [assumption|].
      assert (Ryx : le y x = true) by (destruct (le_total x y); [congruence | assumption]).
      destruct l as [|z l]; cbn.
      * now constructor.
      * destruct (le x z); constructor; [assumption | now inversion Hd].
Qed.

Lemma insertion_sort_Sorted (l : list A) :
  Sorted (fun a b => le a b = true) (insertion_sort le l).
Proof.
  induction l as [|x l IH]; cbn.
  - constructor.
  - now apply insert_sorted_Sorted.
Qed.

Lemma insertion_sort_StronglySorted (l : list A) :
  StronglySorted (fun a b => le a b = true) (insertion_sort le l).
Proof.
  apply Sorted_StronglySorted.
  - intros x y z. apply le_trans.
  - apply insertion_sort_Sorted.
Qed.
End SortFacts.

Lemma key_leb_total (asc : bool) (x y : float64) :
  key_leb asc x y = true \/ key_leb asc y x = true.
Proof.
  unfold key_leb.
  destruct x as [a|s|], y as [b|t|], asc; cbn; auto;
    try (destruct s, t; cbn; auto; fail);
    try (destruct s; cbn; auto; fail);
    try (destruct t; cbn; auto; fail);
    rewrite !Qle_bool_iff; destruct (Qlt_le_dec a b) as [L|L]; auto;
    apply Qlt_le_weak in L; auto.
Qed.

Lemma leb_trans (x y z : float64) :
  leb x y = true -> leb y z = true -> leb x z = true.
Proof.
  destruct x as [a|s|], y as [b|t|], z as [c|u|]; cbn;
    try discriminate; try (intros; assumption);
    repeat match goal with v : bool |- _ => destruct v end; cbn;
    try congruence.
  rewrite !Qle_bool_iff. apply Qle_trans.
Qed.

Lemma leb_not_nan (x y : float64) :
  leb x y = true -> is_nan x = false /\ is_nan y = false.
Proof. destruct x, y; cbn; intros; try discriminate; auto. Qed.

Lemma key_leb_trans (asc : bool) (x y z : float64) :
  key_leb asc x y = true -> key_leb asc y z = true -> key_leb asc x z = true.
Proof.
  unfold key_leb. destruct (is_nan z) eqn:Nz; [reflexivity|].
  cbn [orb]. intros Hxy Hyz.
  assert (Ny : is_nan y = false).
  { destruct asc; apply leb_not_nan in Hyz; tauto. }
  rewrite Ny in Hxy. cbn [orb] in Hxy.
  destruct asc; [eapply leb_trans | eapply leb_trans]; eassumption.
Qed.

(** [sort_values] permutes the rows and puts them in the order of the
    column. *)
Lemma sort_values_perm key asc df : Permutation df (sort_values key asc df).
Proof. apply insertion_sort_perm. Qed.

Lemma sort_values_sorted key asc df :
  StronglySorted (fun r1 r2 => key_leb asc (key r1) (key r2) = true)
                 (sort_values key asc df).
Proof.
  apply insertion_sort_StronglySorted.
  - intros x y. apply key_leb_total.
  - intros x y z. apply key_leb_trans.
Qed.

(** ** Chunking *)

Lemma ceil_div_step (d K : nat) :
  (0 < K)%nat -> (0 < d)%nat -> ceil_div d K = S (ceil_div (d - K) K).
Proof.
  intros HK Hd. unfold ceil_div.
  destruct (Nat.le_gt_cases K d) as [L|G].
  - replace d with ((d - K) + 1 * K)%nat at 1 2 by lia.
    rewrite Nat.div_add by lia. rewrite Nat.Div0.mod_add. lia.
  - replace (d - K)%nat with 0%nat by lia.
    rewrite Nat.div_small by lia. rewrite Nat.mod_small by lia.
    rewrite Nat.Div0.div_0_l, Nat.Div0.mod_0_l. cbn.
    destruct (Nat.eqb_spec d 0); lia.
Qed.

Lemma ceil_div_0 (K : nat) : ceil_div 0 K = 0%nat.
Proof.
  unfold ceil_div. now rewrite Nat.Div0.div_0_l, Nat.Div0.mod_0_l.
Qed.

(** The fuel of [range] is enough: the loop visits [i], [i + step], ... as
    long as they are below [stop]. *)
Lemma range_loop_length (stop step : nat) : forall fuel i,
  (0 < step)%nat -> (stop - i <= fuel)%nat ->
  List.length (range_loop fuel i stop step) = ceil_div (stop - i) step.
Proof.
  induction fuel as [|fuel IH]; intros i Hs Hf; cbn [range_loop].
  - replace (stop - i)%nat with 0%nat by lia. now rewrite ceil_div_0.
  - destruct (Nat.ltb_spec i stop) as [L|G].
    + cbn [List.length]. rewrite IH by lia.
      rewrite (ceil_div_step (stop - i) step) by lia.
      f_equal. f_equal. lia.
    + replace (stop - i)%nat with 0%nat by lia. now rewrite ceil_div_0.
Qed.

Lemma range_loop_nth (stop step : nat) : forall fuel i t j,
  nth_error (range_loop fuel i stop step) t = Some j ->
  j = (i + t * step)%nat /\ (j < stop)%nat.
Proof.
  induction fuel as [|fuel IH]; intros i t j H; cbn [range_loop] in H.
  - destruct t; discriminate.
  - destruct (Nat.ltb_spec i stop) as [L|G].
    + destruct t as [|t]; cbn in H.
      * injection H as <-. lia.
      * apply IH in H. lia.
    + destruct t; discriminate.
Qed.

Lemma iloc_slice_length {A : Type} (i K : nat) (l : list A) :
  List.length (iloc_slice i (i + K) l) = Nat.min K (List.length l - i).
Proof.
  unfold iloc_slice. rewrite length_firstn, length_skipn.
  replace (i + K - i)%nat with K by lia. reflexivity.
Qed.

(** Laid end to end, the slices give back the rows from the first start on. *)
Lemma range_loop_concat {A : Type} (l : list A) (K : nat) : forall fuel i,
  (0 < K)%nat -> (List.length l - i <= fuel)%nat ->
  List.concat (map (fun j => iloc_slice j (j + K) l)
              (range_loop fuel i (List.length l) K))
  = skipn i l.
Proof.
  induction fuel as [|fuel IH]; intros i HK Hf; cbn [range_loop].
  - cbn. symmetry. apply skipn_all2. lia.
  - destruct (Nat.ltb_spec i (List.length l)) as [L|G].
    + cbn [map List.concat]. rewrite IH by lia.
      unfold iloc_slice. replace (i + K - i)%nat with K by lia.
      replace (i + K)%nat with (K + i)%nat by lia.
      rewrite <- skipn_skipn. apply firstn_skipn.
    + cbn. symmetry. apply skipn_all2. lia.
Qed.

Lemma combine_map {A B C : Type} (f : A -> B) (g : A -> C) (l : list A) :
  combine (map f l) (map g l) = map (fun x => (f x, g x)) l.
Proof. induction l as [|x l IH]; cbn; [reflexivity | now rewrite IH]. Qed.

Lemma bars_chart_of mk_title colour mk_text df K i :
  bars (chart_of mk_title colour mk_text df K i)
  = map bar_of_row (iloc_slice i (i + K) df).
Proof. unfold bars, chart_of. cbn. apply combine_map. Qed.

Lemma bar_height_chart_of mk_title colour mk_text df K i :
  bar_height (chart_of mk_title colour mk_text df K i)
  = map Distance_From_MA_pct (iloc_slice i (i + K) df).
Proof. reflexivity. Qed.

(** The figures of one subset, for a chunk size of at least one: they are
    produced, their bars laid end to end are the rows of the subset in
    order, and their sizes are those of a chunking. *)
Lemma charts_of_spec mk_title colour mk_text (df : list row) (K : nat) :
  (0 < K)%nat ->
  exists figs,
    charts_of mk_title colour mk_text df K = Ok figs
    /\ flat_map bars figs = map bar_of_row df
    /\ flat_map bar_height figs = map Distance_From_MA_pct df
    /\ chunked K (List.length df) figs.
Proof.
  intros HK. unfold charts_of, range.
  destruct (Nat.eqb_spec K 0) as [E|_]; [lia|]. cbn [bind].
  rewrite Nat.sub_0_r.
  set (n := List.length df).
  set (starts := range_loop n 0 n K).
  assert (Hlen : List.length starts = ceil_div n K).
  { unfold starts. rewrite range_loop_length by lia. f_equal. lia. }
  assert (Hcat : List.concat (map (fun j => iloc_slice j (j + K) df) starts) = df).
  { unfold starts, n. now rewrite range_loop_concat by lia. }
  eexists. split; [reflexivity|]. split; [|split].
  - rewrite flat_map_concat_map, map_map.
    rewrite (map_ext _ (fun j => map bar_of_row (iloc_slice j (j + K) df)))
      by (intros; apply bars_chart_of).
    rewrite <- (map_map (fun j => iloc_slice j (j + K) df) (map bar_of_row)).
    rewrite <- concat_map. now rewrite Hcat.
  - rewrite flat_map_concat_map, map_map.
    rewrite (map_ext _ (fun j => map Distance_From_MA_pct
                                     (iloc_slice j (j + K) df)))
      by (intros; apply bar_height_chart_of).
    rewrite <- (map_map (fun j => iloc_slice j (j + K) df)
                        (map Distance_From_MA_pct)).
    rewrite <- concat_map. now rewrite Hcat.
  - unfold chunked. rewrite length_map, Hlen.
    split; [reflexivity|]. split; [|split].
    + intros i fig Hi Hnext.
      rewrite nth_error_map in Hi.
      destruct (nth_error starts i) as [j|] eqn:Hj; [|discriminate].
      cbn [option_map] in Hi. injection Hi as <-.
      rewrite bars_chart_of, length_map, iloc_slice_length.
      destruct (nth_error starts (i + 1)) as [j'|] eqn:Ej'.
      * apply range_loop_nth in Hj, Ej'. fold n. nia.
      * apply nth_error_None in Ej'. lia.
    + intros fig Hi Hmod.
      rewrite nth_error_map in Hi.
      destruct (nth_error starts (ceil_div n K - 1)) as [j|] eqn:Hj;
        [|discriminate].
      cbn [option_map] in Hi. injection Hi as <-.
      rewrite bars_chart_of, length_map, iloc_slice_length.
      apply range_loop_nth in Hj. fold n.
      unfold ceil_div in Hj. destruct (Nat.eqb_spec (n mod K) 0); [lia|].
      pose proof (Nat.div_mod_eq n K).
      pose proof (Nat.mod_upper_bound n K ltac:(lia)).
      nia.
    + intros Hn. unfold starts. rewrite Hn. reflexivity.
Qed.

Lemma StronglySorted_app_inv {A : Type} (R : A -> A -> Prop) (l1 l2 : list A) :
  StronglySorted R (l1 ++ l2) ->
  StronglySorted R l1 /\ StronglySorted R l2
  /\ forall x y, In x l1 -> In y l2 -> R x y.
Proof.
  induction l1 as [|a l1 IH]; cbn; intros H.
  - repeat split; [constructor | assumption | contradiction].
  - inversion H as [|? ? Hs Hf]; subst.
    destruct (IH Hs) as (S1 & S2 & Hc).
    apply Forall_app in Hf. destruct Hf as [F1 F2].
    repeat split.
    + now constructor.
    + assumption.
    + intros x y [<-|Hx] Hy.
      * rewrite Forall_forall in F2. now apply F2.
      * now apply Hc.
Qed.

Lemma StronglySorted_map {A B : Type} (f : A -> B) (R : B -> B -> Prop)
  (l : list A) :
  StronglySorted (fun a b => R (f a) (f b)) l -> StronglySorted R (map f l).
Proof.
  induction 1 as [|a l Hs IH Hf]; cbn; constructor.
  - assumption.
  - now rewrite Forall_map.
Qed.

Lemma StronglySorted_weaken {A : Type} (R R' : A -> A -> Prop) (l : list A) :
  (forall x y, In x l -> In y l -> R x y -> R' x y) ->
  StronglySorted R l -> StronglySorted R' l.
Proof.
  intros Himp H. induction H as [|a l Hs IH Hf]; constructor.
  - apply IH. intros x y Hx Hy. apply Himp; now right.
  - rewrite Forall_forall in *. intros y Hy.
    apply Himp; [now left | now right | now apply Hf].
Qed.

Lemma iloc_last_In {A : Type} (l : list A) (x : A) :
  iloc_last l = Ok x -> In x l.
Proof.
  unfold iloc_last. intros H. apply in_rev.
  destruct (rev l); [discriminate|]. injection H as <-. now left.
Qed.

Lemma iloc_first_In {A : Type} (l : list A) (x : A) :
  iloc_first l = Ok x -> In x l.
Proof. destruct l; [discriminate|]. intros H. injection H as <-. now left. Qed.

(** Chunks cut from a sorted sequence are in order. *)
Lemma sorted_chunks_in_order (figs : list figure) :
  StronglySorted fle (flat_map bar_height figs) -> chunks_in_order figs.
Proof.
  intros H. split; [assumption|].
  induction figs as [|f figs IH]; cbn [flat_map] in H.
  - split; [constructor|]. intros [|i]; discriminate.
  - destruct (StronglySorted_app_inv _ _ _ H) as (S1 & S2 & Hc).
    destruct (IH S2) as [IH1 IH2]. split; [now constructor|].
    intros [|i] f' g x y Hf Hg Hx Hy.
    + cbn in Hf. injection Hf as <-. apply Hc.
      * now apply iloc_last_In.
      * cbn in Hg. destruct figs as [|g' figs']; [discriminate|].
        cbn in Hg. injection Hg as <-. cbn [flat_map]. apply in_or_app.
        left. now apply iloc_first_In.
    + cbn in Hf, Hg. now apply (IH2 i f' g x y).
Qed.

Lemma geb_0_not_nan (x : float64) : geb x (of_Z 0) = true -> is_nan x = false.
Proof. destruct x; cbn; congruence. Qed.

Lemma ltb_0_not_nan (x : float64) : ltb x (of_Z 0) = true -> is_nan x = false.
Proof. destruct x; cbn; congruence. Qed.

(** A subset filtered by a test that excludes NaN comes out of [sort_values]
    in ascending order of the distance. *)
Lemma sorted_subset_heights (test : row -> bool) (df : list row) :
  (forall r, test r = true -> is_nan (Distance_From_MA_pct r) = false) ->
  StronglySorted fle
    (map Distance_From_MA_pct
         (sort_values Distance_From_MA_pct true (filter test df))).
Proof.
  intros Hnan. apply StronglySorted_map.
  eapply StronglySorted_weaken; [|apply sort_values_sorted].
  intros x y _ Hy Hk. cbv beta in Hk. unfold key_leb in Hk.
  apply (Permutation_in _ (Permutation_sym (sort_values_perm _ _ _))) in Hy.
  apply filter_In in Hy. destruct Hy as [_ Hy].
  rewrite (Hnan y Hy) in Hk. exact Hk.
Qed.

(** [create_charts] for a chunk size of at least one: both lists of figures
    are produced, and each is a chunking of its sorted subset. *)
Lemma create_charts_spec (df : list row) (K : nat) :
  (0 < K)%nat ->
  exists above below,
    create_charts df K = Ok (above, below)
    /\ flat_map bars above = map bar_of_row (above_df df)
    /\ flat_map bars below = map bar_of_row (below_df df)
    /\ flat_map bar_height above = map Distance_From_MA_pct (above_df df)
    /\ flat_map bar_height below = map Distance_From_MA_pct (below_df df)
    /\ chunked K (List.length (above_df df)) above
    /\ chunked K (List.length (below_df df)) below.
Proof.
  intros HK. unfold create_charts.
  destruct (charts_of_spec above_title "#2ecc71" above_text (above_df df) K HK)
    as (above & Ea & Ba & Ha & Ca).
  destruct (charts_of_spec below_title "#e74c3c" below_text (below_df df) K HK)
    as (below & Eb & Bb & Hb & Cb).
  exists above, below. rewrite Ea. cbn [bind]. rewrite Eb. cbn [bind].
  split; [reflexivity|]. repeat (split; [assumption|]). assumption.
Qed.

Lemma chunk_sizes_positive (K : nat) : In K chunk_sizes -> (0 < K)%nat.
Proof. unfold chunk_sizes. cbn. intros H. lia. Qed.

(** ** C3: two sorted subsets, chunked in order *)

(** C3: for a chunk size offered by the select box, both lists of figures
    are produced; the bars of the first are exactly the rows with a distance
    [>= 0] and the bars of the second exactly the rows with a distance [< 0];
    in each list the heights are non-decreasing through the whole subset,
    hence within each chunk, and the last height of a chunk is at most the
    first height of the next. *)
Theorem C3_subsets_sorted_and_chunked_in_order (df : list row) (K : nat) :
  In K chunk_sizes ->
  exists above below,
    create_charts df K = Ok (above, below)
    /\ Permutation (flat_map bars above) (map bar_of_row (filter is_above df))
    /\ Permutation (flat_map bars below) (map bar_of_row (filter is_below df))
    /\ chunks_in_order above
    /\ chunks_in_order below.
Proof.
  intros HK. apply chunk_sizes_positive in HK.
  destruct (create_charts_spec df K HK)
    as (above & below & E & Ba & Bb & Ha & Hb & _ & _).
  exists above, below. split; [assumption|].
  split; [|split; [|split]].
  - rewrite Ba. apply Permutation_map. symmetry. apply sort_values_perm.
  - rewrite Bb. apply Permutation_map. symmetry. apply sort_values_perm.
  - apply sorted_chunks_in_order. rewrite Ha.
    apply sorted_subset_heights. intros r. apply geb_0_not_nan.
  - apply sorted_chunks_in_order. rewrite Hb.
    apply sorted_subset_heights. intros r. apply ltb_0_not_nan.
Qed.

Lemma C3_witness :
  exists above below,
    create_charts sample_df 15 = Ok (above, below)
    /\ chunks_in_order above /\ chunks_in_order below.
Proof.
  destruct (C3_subsets_sorted_and_chunked_in_order sample_df 15)
    as (above & below & E & _ & _ & Oa & Ob).
  - unfold chunk_sizes. right. left. reflexivity.
  - exists above, below. split; [exact E|]. split; [exact Oa | exact Ob].
Defined.

(** ** C4: the number and the sizes of the chunks *)

(** C4: for a chunk size [K] offered by the select box and a subset of [S]
    rows, the subset gives [ceil(S/K)] figures; every figure but the last
    has [K] bars, the last has [S mod K] bars when that is not zero, and an
    empty subset gives no figure. *)
Theorem C4_chunk_count_and_sizes (df : list row) (K : nat) :
  In K chunk_sizes ->
  exists above below,
    create_charts df K = Ok (above, below)
    /\ chunked K (List.length (filter is_above df)) above
    /\ chunked K (List.length (filter is_below df)) below.
Proof.
  intros HK. apply chunk_sizes_positive in HK.
  destruct (create_charts_spec df K HK)
    as (above & below & E & _ & _ & _ & _ & Ca & Cb).
  exists above, below. split; [assumption|].
  unfold above_df in Ca. unfold below_df in Cb.
  rewrite <- (Permutation_length (sort_values_perm _ _ _)) in Ca.
  rewrite <- (Permutation_length (sort_values_perm _ _ _)) in Cb.
  split; assumption.
Qed.

Lemma C4_witness :
  exists above below,
    create_charts (sample_df ++ sample_df ++ sample_df ++ sample_df
                   ++ sample_df ++ sample_df)%list 10
    = Ok (above, below)
    /\ List.length above = 2%nat /\ List.length below = 2%nat.
Proof.
  destruct (C4_chunk_count_and_sizes
              (sample_df ++ sample_df ++ sample_df ++ sample_df
               ++ sample_df ++ sample_df)%list 10)
    as (above & below & E & (La & _) & (Lb & _)).
  - unfold chunk_sizes. left. reflexivity.
  - exists above, below. split; [exact E|]. split; [exact La | exact Lb].
Defined.

(** ** C8: the scenario with a distance of 5.26 *)

Lemma scenario_history_facts :
  List.length scenario_history = 210%nat
  /\ last_close scenario_history == 100
  /\ spec_MovingAverage 200 (closes scenario_history) == 95.
Proof. repeat split; vm_compute; reflexivity. Qed.

(** C8, as stated, fails on the label: the distance is 5.26 and the row is in
    the chart of the stocks above the average, but the text of the bar is
    formatted with one decimal and reads "+5.3%", not "+5.26%". *)
Lemma C8_label_has_one_decimal :
  exists r fig,
    process_ticker (constant_provider scenario_history) 200 "TCS.NS"
    = Ok (Some r)
    /\ Distance_From_MA_pct r = Fin (526 # 100)
    /\ create_charts [r] 15 = Ok ([fig], [])
    /\ bar_text fig = ["+5.3%"]
    /\ bar_text fig <> ["+5.26%"].
Proof.
  eexists. eexists. split; [vm_compute; reflexivity|].
  split; [reflexivity|]. split; [vm_compute; reflexivity|].
  split; [reflexivity|]. cbn. discriminate.
Qed.

Lemma scenario_distance (c m : Q) :
  c == 100 -> m == 95 ->
  round2 (Fin ((c - m) / m * 100)) = Fin (526 # 100).
Proof.
  intros Hc Hm. cbn [round2]. f_equal. f_equal.
  rewrite (round_half_even_comp _ ((100 - 95) / 95 * 100 * 100)).
  - vm_compute. reflexivity.
  - now rewrite Hc, Hm.
Qed.

(** C8, amended: for a history of 210 points with a last close of 100 and a
    mean of 95 over the last 200, and a period of 200, the stored distance is
    5.26, the row is in the partition [>= 0], and the only figure is a chart
    of the stocks above the average whose bar has height 5.26 and carries
    the text "+5.3%". *)
Theorem C8_scenario_label
  (yf : provider) (ticker : string) (hist : list Hist.point) (r : row)
  (K : nat) :
  history yf ticker (200 + 100) = Ok hist ->
  List.length hist = 210%nat ->
  last_close hist == 100 ->
  spec_MovingAverage 200 (closes hist) == 95 ->
  process_ticker yf 200 ticker = Ok (Some r) ->
  In K chunk_sizes ->
  Distance_From_MA_pct r = Fin (526 # 100)
  /\ is_above r = true
  /\ is_below r = false
  /\ exists fig,
       create_charts [r] K = Ok ([fig], [])
       /\ bar_height fig = [Fin (526 # 100)]
       /\ bar_text fig = ["+5.3%"].
Proof.
  intros Hh Hlen Hc Hm Hr HK.
  destruct (process_ticker_numbers _ _ _ _ _ (Nat.lt_0_succ 199) Hh Hr)
    as (_ & _ & _ & _ & _ & Hd & _).
  fold (spec_MovingAverage 200 (closes hist)) in Hd.
  rewrite (scenario_distance _ _ Hc Hm) in Hd.
  assert (Ha : is_above r = true) by (unfold is_above; now rewrite Hd).
  assert (Hb : is_below r = false) by (unfold is_below; now rewrite Hd).
  repeat (split; [assumption|]).
  unfold create_charts, charts_of, above_df, below_df, chunk_sizes in *.
  cbn [filter]. rewrite Ha, Hb.
  cbn in HK.
  destruct HK as [<-|[<-|[<-|[<-|[<-|[]]]]]];
    (eexists; split; [reflexivity|]; cbn; rewrite Hd; split; reflexivity).
Qed.

Lemma C8_witness :
  exists r,
    process_ticker (constant_provider scenario_history) 200 "TCS.NS"
    = Ok (Some r)
    /\ Distance_From_MA_pct r = Fin (526 # 100)
    /\ is_above r = true.
Proof.
  eexists. split; [vm_compute; reflexivity|].
  match goal with
  | |- Distance_From_MA_pct ?r = _ /\ _ =>
      destruct (C8_scenario_label (constant_provider scenario_history)
                  "TCS.NS" scenario_history r 15 eq_refl
                  (proj1 scenario_history_facts)
                  (proj1 (proj2 scenario_history_facts))
                  (proj2 (proj2 scenario_history_facts)))
        as (Hd & Ha & _)
  end.
  - vm_compute. reflexivity.
  - unfold chunk_sizes. right. left. reflexivity.
  - split; [exact Hd | exact Ha].
Defined.

(** ** Examples *)

Example replace_suffix :
  strip_suffix "M&M.NS" = "M&M" /\ strip_suffix "TCS.NS" = "TCS"
  /\ replace ".NS" "" "A.NS.NS" = "A".
Proof. repeat split; reflexivity. Qed.

Example format_examples :
  format_1f (Fin (526 # 100)) = "5.3" /\ format_1f (Fin (-(4 # 100))) = "-0.0"
  /\ format_1f (Fin (1234 # 10)) = "123.4" /\ format_1f (Fin (25 # 100)) = "0.2"
  /\ str_nat 120 = "120" /\ str_nat 0 = "0".
Proof. repeat split; reflexivity. Qed.

Example round2_examples :
  round2 (Fin (5263 # 1000)) = Fin (526 # 100)
  /\ round2 (Fin (-(5 # 1000))) = Fin (0 # 100)
  /\ round2 (Fin (15 # 1000)) = Fin (2 # 100)
  /\ round2 (Inf false) = Inf false.
Proof. repeat split; reflexivity. Qed.

Example rolling_mean_example :
  rolling_mean 2 [1; 2; 3; 4]%Q = [NaN; Fin (3 # 2); Fin (5 # 2); Fin (7 # 2)].
Proof. reflexivity. Qed.

Example range_example :
  range 0 7 3 = Ok [0; 3; 6]%nat /\ range 0 0 15 = Ok []
  /\ range 0 30 15 = Ok [0; 15]%nat.
Proof. repeat split; reflexivity. Qed.

Example create_charts_example :
  exists a b,
    create_charts sample_df 15 = Ok ([a], [b])
    /\ bars a = [("ITC", Fin (12 # 100)); ("TCS", Fin (526 # 100))]
    /\ bar_text a = ["+0.1%"; "+5.3%"]
    /\ bars b = [("INFY", Fin (-310 # 100)); ("SBIN", Fin (-8 # 100))]
    /\ bar_text b = ["-3.1%"; "-0.1%"]
    /\ title b = "Indian Stocks Below 200-day MA (Group 1)".
Proof. eexists. eexists. repeat split; reflexivity. Qed.

Example main_example :
  exists calls,
    main (provider_failing_on "INFY.NS")
         {| stocks_per_page := Per15; chosen_period := Days50;
            chosen_filter := All; sort_by := ByDistance |} = Ok calls
    /\ In (st_write "Error processing INFY.NS: connection reset") calls
    /\ In (st_metric "Total Stocks" 29) calls
    /\ In (st_metric "Stocks Above MA" 29) calls
    /\ In (st_tabs ["Group 1"; "Group 2"]) calls.
Proof.
  eexists. split; [vm_compute; reflexivity|].
  repeat split; cbn; tauto.
Qed.

(** * Further properties of the fetch loop *)

Lemma progress_values_app (xs ys : list st_call) :
  progress_values (xs ++ ys)
  = (progress_values xs ++ progress_values ys)%list.
Proof. unfold progress_values. apply flat_map_app. Qed.

Lemma loop_body_progress yf P total idx ticker s :
  progress_values (screen (loop_body yf P total idx ticker s))
  = (progress_values (screen s)
     ++ [Z.of_nat (idx + 1) # Pos.of_nat total])%list.
Proof.
  unfold loop_body.
  destruct (process_ticker yf P ticker) as [[r|]|msg]; cbn [show screen append_row];
    rewrite ?progress_values_app; cbn; now rewrite ?app_nil_r.
Qed.

Lemma loop_progress yf P total tickers : forall idx s,
  progress_values (screen (loop yf P total idx tickers s))
  = (progress_values (screen s)
     ++ map (fun i => Z.of_nat (i + 1) # Pos.of_nat total)
            (seq idx (List.length tickers)))%list.
Proof.
  induction tickers as [|t rest IH]; intros idx s; cbn [loop List.length seq map].
  - now rewrite app_nil_r.
  - rewrite IH, loop_body_progress. now rewrite <- app_assoc.
Qed.

(** X1: whatever the provider answers, the progress bar is set to 0 and then
    to (i + 1) / n after the i-th of the n tickers, in order, once per
    ticker; with at least one ticker the last value reported is 1. *)
Theorem X1_progress_reports
  (yf : provider) (tickers : list string) (P : nat) :
  let n := List.length tickers in
  let values := progress_values (screen (get_stocks_below_ma yf tickers P)) in
  values = 0 :: map (fun i => Z.of_nat (i + 1) # Pos.of_nat n) (seq 0 n)
  /\ List.length values = S n
  /\ (tickers <> [] -> last values 0 == 1).
Proof.
  intros n values.
  assert (E : values
              = 0 :: map (fun i => Z.of_nat (i + 1) # Pos.of_nat n) (seq 0 n)).
  { unfold values, get_stocks_below_ma, show. cbn [screen].
    rewrite progress_values_app, loop_progress. cbn. now rewrite app_nil_r. }
  split; [assumption|]. split.
  - rewrite E. cbn. now rewrite length_map, length_seq.
  - intros Hne. rewrite E.
    destruct n as [|m] eqn:En.
    + destruct tickers; [congruence | discriminate].
    + rewrite seq_S, map_app. cbn [map Nat.add].
      change (0 :: ?l ++ [?x])%list with ((0 :: l) ++ [x])%list.
      rewrite last_last. unfold Qeq. cbn [Qnum Qden].
      rewrite <- Pos.of_nat_succ, Zpos_P_of_succ_nat. lia.
Qed.

Lemma X1_witness :
  last (progress_values
          (screen (get_stocks_below_ma unreachable_provider
                     get_nifty_tickers 200))) 0 == 1.
Proof.
  apply (proj2 (proj2 (X1_progress_reports unreachable_provider
                         get_nifty_tickers 200))).
  discriminate.
Defined.

Lemma process_ticker_inv yf P t r :
  process_ticker yf P t = Ok (Some r) ->
  exists hist ind,
    history yf t (P + 100) = Ok hist
    /\ (P < List.length hist)%nat
    /\ compute_indicators P hist = Ok ind
    /\ make_row yf t ind = Ok r.
Proof.
  intros Hr. destruct (history yf t (P + 100)) as [hist|msg] eqn:Hh.
  - destruct (process_ticker_row _ _ _ _ _ Hh Hr) as (L & ind & Hi & Hm).
    now exists hist, ind.
  - rewrite (process_ticker_fetch_error _ _ _ _ Hh) in Hr. discriminate.
Qed.

Lemma process_ticker_none yf P t :
  process_ticker yf P t = Ok None ->
  exists hist, history yf t (P + 100) = Ok hist
               /\ (List.length hist <= P)%nat.
Proof.
  intros Hr. unfold process_ticker in Hr.
  destruct (history yf t (P + 100)) as [hist|msg]; [|discriminate].
  cbn [bind] in Hr. exists hist. split; [reflexivity|].
  destruct (Nat.ltb_spec P (List.length hist)) as [L|G]; [|assumption].
  destruct (compute_indicators P hist) as [ind|]; [|discriminate].
  cbn [bind] in Hr. destruct (make_row yf t ind); discriminate.
Qed.

(** X2: a ticker contributes a row, or an error message, or nothing, never
    two of them: rows and messages together are at most as many as the
    tickers, and exactly as many when no fetched history is too short. *)
Theorem X2_rows_and_messages_count
  (yf : provider) (tickers : list string) (P : nat) :
  let run := get_stocks_below_ma yf tickers P in
  (List.length (results_list run) + List.length (written (screen run))
   <= List.length tickers)%nat
  /\ ((forall t hist, In t tickers -> history yf t (P + 100) = Ok hist ->
                      (P < List.length hist)%nat) ->
      (List.length (results_list run) + List.length (written (screen run))
       = List.length tickers)%nat).
Proof.
  cbv zeta.
  rewrite get_stocks_below_ma_results, get_stocks_below_ma_written.
  induction tickers as [|t ts IH]; cbn [flat_map List.length].
  - split; [lia | reflexivity].
  - destruct IH as [IH1 IH2]. rewrite !length_app.
    assert (H1 : (List.length (row_of yf P t)
                  + List.length (error_of yf P t) <= 1)%nat).
    { unfold row_of, error_of.
      destruct (process_ticker yf P t) as [[r|]|msg]; cbn; lia. }
    split; [lia|]. intros Hlong.
    assert (H2 : (List.length (row_of yf P t)
                  + List.length (error_of yf P t) = 1)%nat).
    { unfold row_of, error_of.
      destruct (process_ticker yf P t) as [[r|]|msg] eqn:E; cbn; try lia.
      destruct (process_ticker_none _ _ _ E) as (hist & Hh & Hlen).
      specialize (Hlong t hist (or_introl eq_refl) Hh). lia. }
    specialize (IH2 (fun u hist Hu => Hlong u hist (or_intror Hu))). lia.
Qed.

Lemma X2_witness :
  let run := get_stocks_below_ma (provider_failing_on "INFY.NS")
               ["TCS.NS"; "INFY.NS"; "ITC.NS"] 50 in
  (List.length (results_list run) + List.length (written (screen run))
   = 3)%nat.
Proof.
  apply (proj2 (X2_rows_and_messages_count (provider_failing_on "INFY.NS")
                  ["TCS.NS"; "INFY.NS"; "ITC.NS"] 50)).
  intros t hist Hin Hh.
  destruct Hin as [<-|[<-|[<-|[]]]]; vm_compute in Hh;
    try discriminate; injection Hh as <-; vm_compute; lia.
Defined.

Lemma make_row_inv yf t ind r :
  make_row yf t ind = Ok r ->
  exists long_name,
    info yf t = Ok long_name
    /\ Symbol r = strip_suffix t
    /\ Name r = match long_name with
                | Some n => n
                | None => strip_suffix t
                end.
Proof.
  unfold make_row. intros H.
  destruct (info yf t) as [long_name|]; [|discriminate].
  cbn [bind] in H. injection H as <-. exists long_name.
  repeat split.
Qed.

(** X3: the [Symbol] column of the data frame lists the tickers that got a
    row, in the order of the input, each without its [.NS]. *)
Theorem X3_symbols_follow_input_order
  (yf : provider) (tickers : list string) (P : nat) :
  map Symbol (results_list (get_stocks_below_ma yf tickers P))
  = map strip_suffix (filter (has_row yf P) tickers).
Proof.
  rewrite get_stocks_below_ma_results.
  induction tickers as [|t ts IH]; cbn [flat_map filter map]; [reflexivity|].
  rewrite map_app, IH. unfold row_of at 1, has_row at 2.
  destruct (process_ticker yf P t) as [[r|]|msg] eqn:E; cbn [map app];
    try reflexivity.
  destruct (process_ticker_inv _ _ _ _ E) as (hist & ind & _ & _ & _ & Hm).
  destruct (make_row_inv _ _ _ _ Hm) as (n & _ & Hs & _).
  now rewrite Hs.
Qed.

(** X4: the [Name] of a row is the display name of the provider when it has
    one, and falls back to the [Symbol] of the row when the ['longName'] key
    is missing. *)
Theorem X4_name_falls_back_to_symbol
  (yf : provider) (P : nat) (ticker : string) (r : row) :
  process_ticker yf P ticker = Ok (Some r) ->
  (info yf ticker = Ok None -> Name r = Symbol r)
  /\ (forall n, info yf ticker = Ok (Some n) -> Name r = n).
Proof.
  intros Hr.
  destruct (process_ticker_inv _ _ _ _ Hr) as (hist & ind & _ & _ & _ & Hm).
  destruct (make_row_inv _ _ _ _ Hm) as (long_name & Hi & Hs & Hn).
  split.
  - intros H. rewrite Hi in H. injection H as ->. now rewrite Hn, Hs.
  - intros n H. rewrite Hi in H. injection H as ->. assumption.
Qed.

Lemma X4_witness :
  exists r,
    process_ticker (constant_provider (flat_history 100 51)) 50 "M&M.NS"
    = Ok (Some r)
    /\ Name r = Symbol r.
Proof.
  eexists. split; [vm_compute; reflexivity|].
  refine (proj1 (X4_name_falls_back_to_symbol
                   (constant_provider (flat_history 100 51)) 50 "M&M.NS" _ _)
                eq_refl).
  vm_compute. reflexivity.
Defined.

(** X5: the name lookup is inside the [try].  When the history is long
    enough and the average is not zero but [stock.info] raises, the ticker
    gets no row and the handler writes the message of the lookup, as for a
    failed fetch; the turn still ends with its progress report. *)
Theorem X5_failed_name_lookup_is_caught
  (yf : provider) (P : nat) (ticker msg : string) (hist : list Hist.point) :
  history yf ticker (P + 100) = Ok hist ->
  (P < List.length hist)%nat ->
  is_zero (trailing_mean P hist) = false ->
  info yf ticker = Raise msg ->
  process_ticker yf P ticker = Raise msg
  /\ forall total idx s,
       loop_body yf P total idx ticker s
       = show (st_progress (Z.of_nat (idx + 1) # Pos.of_nat total))
           (show (st_write (error_message ticker msg)) s).
Proof.
  intros Hh L Hz Hi.
  assert (E : process_ticker yf P ticker = Raise msg).
  { rewrite (process_ticker_long _ _ _ _ Hh L), (compute_indicators_eq _ _ L).
    cbv zeta. rewrite Hz. cbn [bind]. unfold make_row. now rewrite Hi. }
  split; [assumption|]. intros total idx s. unfold loop_body. now rewrite E.
Qed.

Lemma X5_witness :
  process_ticker (provider_without_info (flat_history 100 51)) 50 "TCS.NS"
  = Raise "HTTP Error 401: Unauthorized".
Proof.
  refine (proj1 (X5_failed_name_lookup_is_caught
                   (provider_without_info (flat_history 100 51)) 50 "TCS.NS"
                   "HTTP Error 401: Unauthorized" (flat_history 100 51)
                   eq_refl _ _ eq_refl)).
  - vm_compute. lia.
  - vm_compute. reflexivity.
Defined.

Lemma loop_ext yf1 yf2 P total tickers :
  (forall t, In t tickers -> process_ticker yf1 P t = process_ticker yf2 P t) ->
  forall idx s,
    loop yf1 P total idx tickers s = loop yf2 P total idx tickers s.
Proof.
  induction tickers as [|t ts IH]; intros H idx s; cbn [loop]; [reflexivity|].
  assert (Eb : loop_body yf1 P total idx t s = loop_body yf2 P total idx t s)
    by (unfold loop_body; now rewrite (H t (or_introl eq_refl))).
  rewrite Eb. apply IH. intros u Hu. apply H. now right.
Qed.

(** X6: a run asks the provider for nothing but the history of each listed
    ticker over [ma_period + 100] days and its display name: two providers
    that agree on these requests give the same data frame and the same
    calls to the dashboard. *)
Theorem X6_run_reads_only_listed_requests
  (yf1 yf2 : provider) (tickers : list string) (P : nat) :
  (forall t, In t tickers ->
             history yf1 t (P + 100) = history yf2 t (P + 100)
             /\ info yf1 t = info yf2 t) ->
  get_stocks_below_ma yf1 tickers P = get_stocks_below_ma yf2 tickers P.
Proof.
  intros H. unfold get_stocks_below_ma. f_equal.
  apply loop_ext. intros t Ht. destruct (H t Ht) as [Hh Hi].
  unfold process_ticker, make_row. now rewrite Hh, Hi.
Qed.

Lemma X6_witness :
  get_stocks_below_ma (constant_provider (flat_history 100 51))
    ["TCS.NS"; "ITC.NS"] 50
  = get_stocks_below_ma
      {| history := fun _ days => if (days =? 150)%nat
                                  then Ok (flat_history 100 51)
                                  else Raise "no such window";
         info := fun _ => Ok None |}
      ["TCS.NS"; "ITC.NS"] 50.
Proof.
  apply X6_run_reads_only_listed_requests.
  intros t _. split; reflexivity.
Defined.

(** X7: tickers do not influence each other.  The run of a list followed by
    another gives the rows of the first run followed by the rows of the
    second, and likewise for the error messages. *)
Theorem X7_runs_compose
  (yf : provider) (ts1 ts2 : list string) (P : nat) :
  results_list (get_stocks_below_ma yf (ts1 ++ ts2) P)
  = (results_list (get_stocks_below_ma yf ts1 P)
     ++ results_list (get_stocks_below_ma yf ts2 P))%list
  /\ written (screen (get_stocks_below_ma yf (ts1 ++ ts2) P))
     = (written (screen (get_stocks_below_ma yf ts1 P))
        ++ written (screen (get_stocks_below_ma yf ts2 P)))%list.
Proof.
  rewrite !get_stocks_below_ma_results, !get_stocks_below_ma_written.
  now rewrite !flat_map_app.
Qed.

(** * Further properties of the symbols *)

Lemma replace_from_no_dot (new s : string) :
  no_dot s = true -> replace_from ".NS" new s 0 = s.
Proof.
  induction s as [|c s IH]; cbn [no_dot replace_from]; [reflexivity|].
  intros H. apply andb_true_iff in H. destruct H as [Hc Hs].
  cbn [starts_with]. rewrite Ascii.eqb_sym.
  apply negb_true_iff in Hc. rewrite Hc. cbn [andb]. now rewrite IH.
Qed.

(** X8: for a ticker made of a name without any dot followed by [.NS], the
    symbol is that name; a ticker without any dot is its own symbol. *)
Theorem X8_strip_suffix (base : string) :
  no_dot base = true ->
  strip_suffix (base ++ ".NS") = base /\ strip_suffix base = base.
Proof.
  intros H. split; [|now apply replace_from_no_dot].
  unfold strip_suffix, replace.
  induction base as [|c base IH]; [reflexivity|].
  cbn [no_dot] in H. apply andb_true_iff in H. destruct H as [Hc Hs].
  cbn [String.append replace_from starts_with]. rewrite Ascii.eqb_sym.
  apply negb_true_iff in Hc. rewrite Hc. cbn [andb]. now rewrite IH.
Qed.

Lemma X8_witness : strip_suffix "BAJAJFINSV.NS" = "BAJAJFINSV".
Proof. exact (proj1 (X8_strip_suffix "BAJAJFINSV" eq_refl)). Defined.

(** * Further properties of the charts *)

Lemma charts_of_inv mk_title colour mk_text (df : list row) (K : nat) figs :
  (0 < K)%nat ->
  charts_of mk_title colour mk_text df K = Ok figs ->
  figs = map (chart_of mk_title colour mk_text df K)
             (range_loop (List.length df) 0 (List.length df) K).
Proof.
  intros HK. unfold charts_of, range.
  destruct (Nat.eqb_spec K 0) as [E|_]; [lia|]. cbn [bind].
  rewrite Nat.sub_0_r. intros H. now injection H as <-.
Qed.

Lemma create_charts_inv (df : list row) (K : nat) above below :
  create_charts df K = Ok (above, below) ->
  charts_of above_title "#2ecc71" above_text (above_df df) K = Ok above
  /\ charts_of below_title "#e74c3c" below_text (below_df df) K = Ok below.
Proof.
  unfold create_charts. intros H.
  destruct (charts_of above_title _ _ _ _) as [a|]; [|discriminate].
  cbn [bind] in H.
  destruct (charts_of below_title _ _ _ _) as [b|]; [|discriminate].
  cbn [bind] in H. injection H as <- <-. split; reflexivity.
Qed.

(** A figure of a list of figures is the chart of the slice that starts at
    [i * K], for its position [i]. *)
Lemma charts_of_nth mk_title colour mk_text (df : list row) (K : nat) figs
  i fig :
  (0 < K)%nat ->
  charts_of mk_title colour mk_text df K = Ok figs ->
  nth_error figs i = Some fig ->
  fig = chart_of mk_title colour mk_text df K (i * K)
  /\ (i * K < List.length df)%nat.
Proof.
  intros HK Hc Hn. rewrite (charts_of_inv _ _ _ _ _ _ HK Hc) in Hn.
  rewrite nth_error_map in Hn.
  destruct (nth_error _ i) as [j|] eqn:Ej; [|discriminate].
  cbn [option_map] in Hn. injection Hn as <-.
  apply range_loop_nth in Ej. destruct Ej as [-> Hlt]. cbn [Nat.add].
  split; [reflexivity | assumption].
Qed.

(** X9: on a data frame with at least one row, [create_charts] raises
    exactly when the chunk size is zero, with the [ValueError] of [range];
    with any other chunk size both lists of figures are returned. *)
Theorem X9_create_charts_raises_iff_zero (df : list row) (K : nat) :
  df <> [] ->
  ((exists msg, create_charts df K = Raise msg) <-> K = 0%nat)
  /\ create_charts df 0 = Raise "range() arg 3 must not be zero".
Proof.
  intros _. split; [|reflexivity]. split.
  - intros [msg H]. destruct K as [|k]; [reflexivity|].
    destruct (create_charts_spec df (S k) (Nat.lt_0_succ k))
      as (a & b & E & _). rewrite E in H. discriminate.
  - intros ->. eexists. reflexivity.
Qed.

Lemma X9_witness :
  create_charts sample_df 0 = Raise "range() arg 3 must not be zero".
Proof.
  refine (proj2 (X9_create_charts_raises_iff_zero sample_df 0 _)).
  discriminate.
Defined.

(** X10: the figures of each list are numbered from 1 in their titles, the
    two lists independently, and drawn in the colour of their list. *)
Theorem X10_titles_number_the_groups
  (df : list row) (K : nat) (above below : list figure) :
  (0 < K)%nat ->
  create_charts df K = Ok (above, below) ->
  (forall i fig, nth_error above i = Some fig ->
     title fig = "Indian Stocks Above 200-day MA (Group "
                 ++ str_nat (i + 1) ++ ")"
     /\ color fig = "#2ecc71")
  /\ (forall i fig, nth_error below i = Some fig ->
     title fig = "Indian Stocks Below 200-day MA (Group "
                 ++ str_nat (i + 1) ++ ")"
     /\ color fig = "#e74c3c").
Proof.
  intros HK Hc. destruct (create_charts_inv _ _ _ _ Hc) as [Ha Hb].
  split; intros i fig Hn.
  - destruct (charts_of_nth _ _ _ _ _ _ _ _ HK Ha Hn) as [-> _].
    cbn [title color chart_of]. rewrite Nat.div_mul by lia.
    split; reflexivity.
  - destruct (charts_of_nth _ _ _ _ _ _ _ _ HK Hb Hn) as [-> _].
    cbn [title color chart_of]. rewrite Nat.div_mul by lia.
    split; reflexivity.
Qed.

Lemma X10_witness :
  exists a b,
    create_charts sample_df 15 = Ok ([a], [b])
    /\ title a = "Indian Stocks Above 200-day MA (Group 1)"
    /\ title b = "Indian Stocks Below 200-day MA (Group 1)".
Proof.
  eexists. eexists. split; [vm_compute; reflexivity|].
  match goal with
  | |- title ?a = _ /\ title ?b = _ =>
      destruct (X10_titles_number_the_groups sample_df 15 [a] [b]
                  (Nat.lt_0_succ 14) eq_refl) as [Ha Hb];
      split; [exact (proj1 (Ha 0%nat a eq_refl))
             | exact (proj1 (Hb 0%nat b eq_refl))]
  end.
Defined.

Lemma chart_of_sizes mk_title colour mk_text (df : list row) (K j : nat) :
  (0 < K)%nat -> (j < List.length df)%nat ->
  let fig := chart_of mk_title colour mk_text df K j in
  (1 <= List.length (bar_x fig) <= K)%nat
  /\ List.length (bar_height fig) = List.length (bar_x fig)
  /\ List.length (bar_text fig) = List.length (bar_x fig).
Proof.
  intros HK Hj. cbn [chart_of bar_x bar_height bar_text].
  rewrite !length_map, iloc_slice_length. lia.
Qed.

(** X11: no figure is empty and none holds more bars than the chunk size;
    each bar of a figure has its category, its height and its text. *)
Theorem X11_figures_hold_one_to_K_bars
  (df : list row) (K : nat) (above below : list figure) :
  (0 < K)%nat ->
  create_charts df K = Ok (above, below) ->
  forall fig, In fig (above ++ below) ->
    (1 <= List.length (bar_x fig) <= K)%nat
    /\ List.length (bar_height fig) = List.length (bar_x fig)
    /\ List.length (bar_text fig) = List.length (bar_x fig).
Proof.
  intros HK Hc fig Hin. destruct (create_charts_inv _ _ _ _ Hc) as [Ha Hb].
  apply in_app_or in Hin.
  destruct Hin as [Hin|Hin]; apply In_nth_error in Hin;
    destruct Hin as [i Hn].
  - destruct (charts_of_nth _ _ _ _ _ _ _ _ HK Ha Hn) as [-> Hlt].
    now apply chart_of_sizes.
  - destruct (charts_of_nth _ _ _ _ _ _ _ _ HK Hb Hn) as [-> Hlt].
    now apply chart_of_sizes.
Qed.

Lemma X11_witness :
  exists a b,
    create_charts sample_df 15 = Ok ([a], [b])
    /\ (1 <= List.length (bar_x a) <= 15)%nat.
Proof.
  eexists. eexists. split; [vm_compute; reflexivity|].
  match goal with
  | |- (1 <= List.length (bar_x ?a) <= _)%nat =>
      refine (proj1 (X11_figures_hold_one_to_K_bars sample_df 15 [a] _
                       (Nat.lt_0_succ 14) eq_refl a (or_introl eq_refl)))
  end.
Defined.

Lemma In_firstn {A : Type} (x : A) : forall (n : nat) (l : list A),
  In x (firstn n l) -> In x l.
Proof.
  induction n as [|n IH]; intros [|y l] H; cbn in H; try contradiction.
  destruct H as [->|H]; [now left | right; now apply IH].
Qed.

Lemma In_iloc_slice {A : Type} (i j : nat) (l : list A) (x : A) :
  In x (iloc_slice i j l) -> In x l.
Proof.
  unfold iloc_slice. intros H. apply In_firstn in H.
  rewrite <- (firstn_skipn i l). apply in_or_app. now right.
Qed.

Lemma In_below_df (df : list row) (r : row) :
  In r (below_df df) -> In r df /\ is_below r = true.
Proof.
  intros H. unfold below_df in H.
  apply (Permutation_in _ (Permutation_sym (sort_values_perm _ _ _))) in H.
  now apply filter_In in H.
Qed.

(** The text of a number below zero starts with the minus sign. *)
Lemma format_1f_negative (x : float64) :
  ltb x (of_Z 0) = true -> exists s, format_1f x = "-" ++ s.
Proof.
  destruct x as [q|[|]|]; cbn [ltb of_Z]; try discriminate.
  - intros H. cbn [format_1f]. unfold Qneg.
    change (inject_Z 0) with 0%Q in H. rewrite H.
    eexists. reflexivity.
  - intros _. exists "inf". reflexivity.
Qed.

(** X12: every text drawn in a chart of the stocks above the average starts
    with a plus sign, and every text drawn in a chart of the stocks below it
    starts with the minus sign of its number. *)
Theorem X12_bar_texts_carry_the_sign
  (df : list row) (K : nat) (above below : list figure) :
  (0 < K)%nat ->
  create_charts df K = Ok (above, below) ->
  (forall fig s, In fig above -> In s (bar_text fig) ->
                 starts_with "+" s = true)
  /\ (forall fig s, In fig below -> In s (bar_text fig) ->
                    starts_with "-" s = true).
Proof.
  intros HK Hc. destruct (create_charts_inv _ _ _ _ Hc) as [Ha Hb].
  split; intros fig s Hin Hs; apply In_nth_error in Hin;
    destruct Hin as [i Hn].
  - destruct (charts_of_nth _ _ _ _ _ _ _ _ HK Ha Hn) as [-> _].
    cbn [bar_text chart_of] in Hs. apply in_map_iff in Hs.
    destruct Hs as (r & <- & _). reflexivity.
  - destruct (charts_of_nth _ _ _ _ _ _ _ _ HK Hb Hn) as [-> _].
    cbn [bar_text chart_of] in Hs. apply in_map_iff in Hs.
    destruct Hs as (r & <- & Hr).
    apply In_iloc_slice, In_below_df in Hr. destruct Hr as [_ Hr].
    destruct (format_1f_negative _ Hr) as [t Et].
    unfold below_text. rewrite Et. reflexivity.
Qed.

Lemma X12_witness :
  exists a b,
    create_charts sample_df 15 = Ok ([a], [b])
    /\ bar_text b = ["-3.1%"; "-0.1%"]
    /\ starts_with "-" "-3.1%" = true.
Proof.
  eexists. eexists. split; [vm_compute; reflexivity|].
  split; [reflexivity|].
  match goal with
  | |- starts_with "-" ?s = true =>
      refine (proj2 (X12_bar_texts_carry_the_sign sample_df 15 _ _
                       (Nat.lt_0_succ 14) eq_refl) _ s (or_introl eq_refl) _)
  end.
  left. reflexivity.
Defined.

(** ** Which rows are drawn *)

(** A number that is not NaN is either [< 0] or [>= 0]. *)
Lemma geb_negb_ltb (x : float64) :
  is_nan x = false -> geb x (of_Z 0) = negb (ltb x (of_Z 0)).
Proof.
  destruct x as [q|[|]|]; cbn; try reflexivity; try discriminate.
  intros _. change (inject_Z 0) with 0%Q.
  destruct (Qle_bool 0 q) eqn:E1, (Qle_bool q 0) eqn:E2,
    (Qeq_bool q 0) eqn:E3; cbn; try reflexivity; exfalso.
  - apply Qle_bool_iff in E1, E2. apply Qeq_bool_neq in E3.
    apply E3. now apply Qle_antisym.
  - apply Qeq_bool_eq in E3. rewrite E3 in E1. discriminate.
  - apply Qeq_bool_eq in E3. rewrite E3 in E1. discriminate.
  - destruct (Qlt_le_dec q 0) as [L|L].
    + apply Qlt_le_weak, Qle_bool_iff in L. congruence.
    + apply Qle_bool_iff in L. congruence.
Qed.

(** A row with a distance is matched by exactly one of the two filters, and
    a row whose distance is NaN by neither. *)
Lemma row_in_one_filter (r : row) :
  (has_distance r = true /\ is_above r = negb (is_below r))
  \/ (has_distance r = false /\ is_above r = false /\ is_below r = false).
Proof.
  unfold has_distance, is_above, is_below.
  destruct (Distance_From_MA_pct r) as [q|[|]|] eqn:E.
  - left. split; [reflexivity|]. now apply geb_negb_ltb.
  - left. split; reflexivity.
  - left. split; reflexivity.
  - right. repeat split.
Qed.

Lemma filters_split (df : list row) :
  Permutation (filter is_above df ++ filter is_below df)
              (filter has_distance df).
Proof.
  induction df as [|r df IH]; cbn [filter]; [constructor|].
  destruct (row_in_one_filter r) as [[Hd Ha]|(Hd & Ha & Hb)].
  - rewrite Hd, Ha. destruct (is_below r); cbn [negb app].
    + rewrite <- Permutation_middle. now constructor.
    + now constructor.
  - rewrite Hd, Ha, Hb. exact IH.
Qed.

(** X13: a row whose stored distance is a number is drawn exactly once, and
    a row whose stored distance is NaN is drawn in neither list: the bars of
    the two lists of figures, taken together, are the rows with a distance,
    up to their order. *)
Theorem X13_rows_with_a_distance_are_drawn_once
  (df : list row) (K : nat) (above below : list figure) :
  (0 < K)%nat ->
  create_charts df K = Ok (above, below) ->
  Permutation (flat_map bars above ++ flat_map bars below)
              (map bar_of_row (filter has_distance df)).
Proof.
  intros HK Hc.
  destruct (create_charts_spec df K HK) as (a & b & E & Ba & Bb & _).
  rewrite E in Hc. injection Hc as -> ->.
  rewrite Ba, Bb, <- map_app. apply Permutation_map.
  unfold above_df, below_df.
  rewrite <- (sort_values_perm Distance_From_MA_pct true (filter is_above df)).
  rewrite <- (sort_values_perm Distance_From_MA_pct true (filter is_below df)).
  apply filters_split.
Qed.

Lemma X13_witness :
  exists above below,
    create_charts mixed_df 15 = Ok (above, below)
    /\ List.length mixed_df = 5%nat
    /\ List.length (flat_map bars above ++ flat_map bars below) = 4%nat
    /\ Permutation (flat_map bars above ++ flat_map bars below)
                   (map bar_of_row (filter has_distance mixed_df)).
Proof.
  eexists. eexists. split; [vm_compute; reflexivity|].
  split; [reflexivity|]. split; [reflexivity|].
  refine (X13_rows_with_a_distance_are_drawn_once mixed_df 15 _ _
            (Nat.lt_0_succ 14) _).
  vm_compute. reflexivity.
Defined.

(** * Further properties of [main] *)

Lemma Ok_inj {A : Type} (a b : A) : Ok a = Ok b -> a = b.
Proof. intros H. now injection H. Qed.

Lemma per_chart_value_positive (o : per_chart_option) :
  (0 < per_chart_value o)%nat.
Proof. destruct o; cbn; lia. Qed.

(** The two ways [main] ends: with the error box on an empty data frame, or
    with the tiles, the figures and the table. *)
Lemma main_cases (yf : provider) (ui : user_input) :
  let df := analysis yf ui in
  (df = [] /\ main yf ui = Ok (fetch_calls yf ui ++ [st_error no_data_message])%list)
  \/ (df <> [] /\
      exists above below,
        create_charts df (per_chart_value (stocks_per_page ui))
        = Ok (above, below)
        /\ main yf ui
           = Ok (fetch_calls yf ui
                 ++ [ st_columns 3;
                      st_metric "Total Stocks" (List.length df);
                      st_metric "Stocks Above MA"
                        (List.length (filter is_above df));
                      st_metric "Stocks Below MA"
                        (List.length (filter is_below df)) ]
                 ++ show_charts "Stocks Trading Above MA" above
                 ++ show_charts "Stocks Trading Below MA" below
                 ++ [ st_subheader "Detailed Stock Data";
                      st_columns 2;
                      st_selectbox "Filter by";
                      st_selectbox "Sort by";
                      st_dataframe
                        (sort_values (sort_column (sort_by ui)) false
                           (filtered_rows (chosen_filter ui) df)) ])%list).
Proof.
  cbv zeta. unfold main, analysis, fetch_calls.
  set (run := get_stocks_below_ma yf get_nifty_tickers
                (period_value (chosen_period ui))).
  destruct (results_list run) as [|r df] eqn:E.
  - left. split; reflexivity.
  - right. split; [discriminate|].
    destruct (create_charts_spec (r :: df)
                (per_chart_value (stocks_per_page ui))
                (per_chart_value_positive _))
      as (above & below & Ec & _).
    exists above, below. split; [assumption|].
    unfold render. rewrite Ec. cbn [bind fst snd]. reflexivity.
Qed.

Lemma fetch_calls_plain yf ui :
  Forall (fun c => is_plain c = true) (fetch_calls yf ui).
Proof.
  unfold fetch_calls. apply Forall_app. split; [repeat constructor|].
  eapply Forall_impl; [|apply get_stocks_below_ma_calls].
  intros c. destruct c; cbn; congruence.
Qed.

Lemma metric_values_app (xs ys : list st_call) :
  metric_values (xs ++ ys) = (metric_values xs ++ metric_values ys)%list.
Proof. unfold metric_values. apply flat_map_app. Qed.

Lemma plotted_app (xs ys : list st_call) :
  plotted (xs ++ ys) = (plotted xs ++ plotted ys)%list.
Proof. unfold plotted. apply flat_map_app. Qed.

Lemma show_charts_metrics_plots (heading : string) (charts : list figure) :
  metric_values (show_charts heading charts) = []
  /\ plotted (show_charts heading charts) = charts.
Proof.
  destruct charts as [|f fs]; [split; reflexivity|].
  unfold show_charts. cbn [metric_values plotted flat_map app].
  generalize (f :: fs). intros l.
  induction l as [|g l [IH1 IH2]]; [split; reflexivity|].
  cbn. split; [assumption | now f_equal].
Qed.

Lemma filter_complement_length {A : Type} (f : A -> bool) (l : list A) :
  List.length l
  = (List.length (filter f l)
     + List.length (filter (fun x => negb (f x)) l))%nat.
Proof.
  induction l as [|x l IH]; cbn [filter]; [reflexivity|].
  destruct (f x); cbn [negb List.length]; lia.
Qed.

(** X14: on a data frame with at least one row, the part of [main] after
    the emptiness test shows three tiles: the total is the number of rows,
    the other two together count exactly the bars drawn in the figures it
    shows, and the total exceeds them by the number of rows whose stored
    distance is NaN. *)
Theorem X14_tiles_count_the_bars (df : list row) (ui : user_input)
  (calls : list st_call) :
  df <> [] ->
  render df ui = Ok calls ->
  exists a b,
    metric_values calls
    = [ ("Total Stocks", List.length df); ("Stocks Above MA", a);
        ("Stocks Below MA", b) ]
    /\ List.length (flat_map bars (plotted calls)) = (a + b)%nat
    /\ List.length df
       = (a + b + List.length (filter (fun r => negb (has_distance r)) df))%nat.
Proof.
  intros _ Hr. unfold render in Hr.
  destruct (create_charts_spec df (per_chart_value (stocks_per_page ui))
              (per_chart_value_positive _))
    as (above & below & Ec & Ba & Bb & _).
  rewrite Ec in Hr. cbn [bind fst snd] in Hr. apply Ok_inj in Hr. subst calls.
  exists (List.length (filter is_above df)),
         (List.length (filter is_below df)).
  assert (La : List.length (flat_map bars above)
               = List.length (filter is_above df)).
  { rewrite Ba, length_map. unfold above_df.
    symmetry. apply Permutation_length, sort_values_perm. }
  assert (Lb : List.length (flat_map bars below)
               = List.length (filter is_below df)).
  { rewrite Bb, length_map. unfold below_df.
    symmetry. apply Permutation_length, sort_values_perm. }
  destruct (show_charts_metrics_plots "Stocks Trading Above MA" above)
    as [Ma Pa].
  destruct (show_charts_metrics_plots "Stocks Trading Below MA" below)
    as [Mb Pb].
  split; [|split].
  - rewrite !metric_values_app, Ma, Mb. reflexivity.
  - rewrite !plotted_app, Pa, Pb. cbn [plotted flat_map app].
    rewrite app_nil_r, flat_map_app, length_app. lia.
  - rewrite (filter_complement_length has_distance df).
    rewrite <- (Permutation_length (filters_split df)), length_app.
    reflexivity.
Qed.

Lemma X14_witness :
  exists calls,
    render mixed_df default_choices = Ok calls
    /\ metric_values calls
       = [ ("Total Stocks", 5%nat); ("Stocks Above MA", 2%nat);
           ("Stocks Below MA", 2%nat) ]
    /\ exists a b,
         metric_values calls
         = [ ("Total Stocks", List.length mixed_df); ("Stocks Above MA", a);
             ("Stocks Below MA", b) ]
         /\ List.length (flat_map bars (plotted calls)) = (a + b)%nat
         /\ List.length mixed_df
            = (a + b + List.length
                         (filter (fun r => negb (has_distance r)) mixed_df))%nat.
Proof.
  eexists. split; [vm_compute; reflexivity|]. split; [reflexivity|].
  refine (X14_tiles_count_the_bars mixed_df default_choices _ _ _).
  - discriminate.
  - vm_compute. reflexivity.
Defined.

Lemma error_boxes_app (xs ys : list st_call) :
  error_boxes (xs ++ ys) = (error_boxes xs ++ error_boxes ys)%list.
Proof. unfold error_boxes. apply flat_map_app. Qed.

Lemma tables_app (xs ys : list st_call) :
  tables (xs ++ ys) = (tables xs ++ tables ys)%list.
Proof. unfold tables. apply flat_map_app. Qed.

Lemma plain_no_error_no_table (calls : list st_call) :
  Forall (fun c => is_plain c = true) calls ->
  error_boxes calls = [] /\ tables calls = [].
Proof.
  induction 1 as [|c calls Hc _ IH]; [split; reflexivity|].
  destruct IH as [IH1 IH2].
  destruct c; cbn in Hc; try discriminate; cbn; auto.
Qed.

Lemma show_charts_no_error_no_table (heading : string)
  (charts : list figure) :
  error_boxes (show_charts heading charts) = []
  /\ tables (show_charts heading charts) = [].
Proof.
  destruct charts as [|f fs]; [split; reflexivity|].
  unfold show_charts. cbn [error_boxes tables flat_map app].
  generalize (f :: fs). intros l.
  induction l as [|g l [IH1 IH2]]; [split; reflexivity|].
  cbn. split; assumption.
Qed.

Lemma In_tables (calls : list st_call) (rows : list row) :
  In (st_dataframe rows) calls -> In rows (tables calls).
Proof.
  intros H. unfold tables. apply in_flat_map.
  exists (st_dataframe rows). split; [assumption | now left].
Qed.

(** What [main] shows of the error box and of the table, in its two cases. *)
Lemma main_error_or_table (yf : provider) (ui : user_input)
  (calls : list st_call) :
  main yf ui = Ok calls ->
  (analysis yf ui = []
   /\ error_boxes calls = [no_data_message] /\ tables calls = [])
  \/ (analysis yf ui <> []
      /\ error_boxes calls = []
      /\ tables calls
         = [sort_values (sort_column (sort_by ui)) false
              (filtered_rows (chosen_filter ui) (analysis yf ui))]).
Proof.
  intros Hm.
  destruct (plain_no_error_no_table _ (fetch_calls_plain yf ui)) as [Fe Ft].
  destruct (main_cases yf ui) as [[E0 E]|(Hne & above & below & Ec & E)];
    rewrite E in Hm; apply Ok_inj in Hm; subst calls.
  - left. rewrite error_boxes_app, tables_app, Fe, Ft.
    split; [assumption|]. split; reflexivity.
  - right.
    destruct (show_charts_no_error_no_table "Stocks Trading Above MA" above)
      as [Ea Ta].
    destruct (show_charts_no_error_no_table "Stocks Trading Below MA" below)
      as [Eb Tb].
    split; [assumption|].
    rewrite !error_boxes_app, !tables_app, Fe, Ft, Ea, Ta, Eb, Tb.
    split; reflexivity.
Qed.

(** X15: the table [main] shows holds exactly the rows the filter box
    selects (all rows, those with a distance [>= 0], or those with a distance
    [< 0]), ordered from the largest to the smallest value of the column the
    sort box names, rows without a value last. *)
Theorem X15_table_is_filtered_and_sorted (yf : provider) (ui : user_input)
  (calls : list st_call) (rows : list row) :
  main yf ui = Ok calls ->
  In (st_dataframe rows) calls ->
  Permutation rows (filtered_rows (chosen_filter ui) (analysis yf ui))
  /\ StronglySorted (descending (sort_column (sort_by ui))) rows.
Proof.
  intros Hm Hin. apply In_tables in Hin.
  destruct (main_error_or_table yf ui calls Hm)
    as [(_ & _ & Et)|(_ & _ & Et)]; rewrite Et in Hin.
  - destruct Hin.
  - destruct Hin as [<-|[]]. split.
    + symmetry. apply sort_values_perm.
    + eapply StronglySorted_weaken; [|apply sort_values_sorted].
      intros r1 r2 _ _ H. cbv beta in H. unfold key_leb in H.
      apply orb_true_iff in H. exact H.
Qed.

(** X16: [main] shows either the error box or the table, never both and
    never neither: the error box, once, exactly when the run produced no
    row, and the table, once, exactly when it produced one. *)
Theorem X16_error_box_or_table (yf : provider) (ui : user_input)
  (calls : list st_call) :
  main yf ui = Ok calls ->
  (analysis yf ui = []
   /\ error_boxes calls = [no_data_message] /\ tables calls = [])
  \/ (analysis yf ui <> []
      /\ error_boxes calls = []
      /\ exists rows, tables calls = [rows]).
Proof.
  intros Hm.
  destruct (main_error_or_table yf ui calls Hm)
    as [H|(Hne & He & Et)]; [now left|].
  right. split; [assumption|]. split; [assumption|].
  eexists. exact Et.
Qed.

Lemma X15_witness :
  exists calls rows,
    main (provider_failing_on "INFY.NS")
         {| stocks_per_page := Per10; chosen_period := Days50;
            chosen_filter := All; sort_by := ByCurrentPrice |} = Ok calls
    /\ In (st_dataframe rows) calls
    /\ List.length rows = 29%nat
    /\ StronglySorted (descending Current_Price) rows.
Proof.
  eexists. eexists. split; [vm_compute; reflexivity|].
  split; [repeat (first [left; reflexivity | right])|].
  split; [reflexivity|].
  refine (proj2 (X15_table_is_filtered_and_sorted
                   (provider_failing_on "INFY.NS")
                   {| stocks_per_page := Per10; chosen_period := Days50;
                      chosen_filter := All; sort_by := ByCurrentPrice |}
                   _ _ _ _)).
  - vm_compute. reflexivity.
  - repeat (first [left; reflexivity | right]).
Defined.

Lemma X16_witness :
  exists calls,
    main unreachable_provider default_choices = Ok calls
    /\ error_boxes calls = [no_data_message] /\ tables calls = [].
Proof.
  eexists. split; [vm_compute; reflexivity|].
  destruct (X16_error_box_or_table unreachable_provider default_choices _
              eq_refl) as [(_ & He & Ht)|(Hne & _)].
  - split; [exact He | exact Ht].
  - exfalso. apply Hne. reflexivity.
Defined.

(** * Further properties of the indicators *)

Lemma inject_Z_succ (n : nat) :
  inject_Z (Z.of_nat (S n)) == inject_Z (Z.of_nat n) + 1.
Proof. rewrite Nat2Z.inj_succ. unfold Z.succ. now rewrite inject_Z_plus. Qed.

Lemma Qsum_le_bound (c : Q) (xs : list Q) :
  Forall (fun x => x <= c) xs ->
  Qsum xs <= inject_Z (Z.of_nat (List.length xs)) * c.
Proof.
  induction 1 as [|x xs Hx _ IH].
  - change (0 <= 0 * c) || change (0 * c <= 0). lra.
  - change (x + Qsum xs <= inject_Z (Z.of_nat (S (List.length xs))) * c).
    rewrite inject_Z_succ. cbv beta in Hx.
    generalize dependent (inject_Z (Z.of_nat (List.length xs))).
    intros z IH. lra.
Qed.

Lemma Qsum_ge_bound (c : Q) (xs : list Q) :
  Forall (fun x => c <= x) xs ->
  inject_Z (Z.of_nat (List.length xs)) * c <= Qsum xs.
Proof.
  induction 1 as [|x xs Hx _ IH].
  - change (0 <= 0 * c) || change (0 * c <= 0). lra.
  - change (inject_Z (Z.of_nat (S (List.length xs))) * c <= x + Qsum xs).
    rewrite inject_Z_succ. cbv beta in Hx.
    generalize dependent (inject_Z (Z.of_nat (List.length xs))).
    intros z IH. lra.
Qed.

Lemma window_length (P : nat) (hist : list Hist.point) :
  (P <= List.length hist)%nat -> List.length (window P hist) = P.
Proof.
  intros H. unfold window. apply lastn_length.
  unfold closes. rewrite length_map. lia.
Qed.

(** The average of a window of positive closes is positive. *)
Lemma average_positive (P : nat) (hist : list Hist.point) :
  (0 < P)%nat -> (P <= List.length hist)%nat ->
  positive_closes hist ->
  0 < Qsum (window P hist) / inject_Z (Z.of_nat P).
Proof.
  intros HP Hlen Hpos.
  destruct (trailing_mean_pos P hist HP Hlen Hpos) as (m & Em & Hm).
  rewrite (trailing_mean_Fin P hist HP Hlen) in Em.
  injection Em as <-. exact Hm.
Qed.

(** The average lies between a lower and an upper bound of the window. *)
Lemma average_le_bound (P : nat) (hist : list Hist.point) (c : Q) :
  (0 < P)%nat -> (P <= List.length hist)%nat ->
  Forall (fun x => x <= c) (window P hist) ->
  Qsum (window P hist) / inject_Z (Z.of_nat P) <= c.
Proof.
  intros HP Hlen H. apply Qle_shift_div_r; [now apply inject_Z_pos|].
  pose proof (Qsum_le_bound c _ H) as B.
  rewrite (window_length P hist Hlen) in B. now rewrite Qmult_comm.
Qed.

Lemma average_ge_bound (P : nat) (hist : list Hist.point) (c : Q) :
  (0 < P)%nat -> (P <= List.length hist)%nat ->
  Forall (fun x => c <= x) (window P hist) ->
  c <= Qsum (window P hist) / inject_Z (Z.of_nat P).
Proof.
  intros HP Hlen H. apply Qle_shift_div_l; [now apply inject_Z_pos|].
  pose proof (Qsum_ge_bound c _ H) as B.
  rewrite (window_length P hist Hlen) in B. now rewrite Qmult_comm.
Qed.

Lemma ltb_Fin_false (a b : Q) : b <= a -> ltb (Fin a) (Fin b) = false.
Proof.
  intros H. destruct (ltb (Fin a) (Fin b)) eqn:E; [|reflexivity].
  apply ltb_Fin in E. lra.
Qed.

(** X18: a stock whose last close is the highest of the last [P] closes is
    never flagged as below its average, and it is drawn with the stocks
    above the average (positive prices, a period of at least one day). *)
Theorem X18_period_high_is_not_below
  (yf : provider) (P : nat) (ticker : string) (hist : list Hist.point)
  (r : row) :
  (0 < P)%nat ->
  history yf ticker (P + 100) = Ok hist ->
  positive_closes hist ->
  Forall (fun x => x <= last_close hist) (window P hist) ->
  process_ticker yf P ticker = Ok (Some r) ->
  Below_MA r = false /\ is_above r = true /\ is_below r = false.
Proof.
  intros HP Hh Hpos Hhigh Hr.
  destruct (process_ticker_numbers _ _ _ _ _ HP Hh Hr)
    as (L & _ & _ & _ & Hb & Hd & _).
  fold (window P hist) in Hb, Hd.
  set (c := last_close hist) in *.
  set (m := Qsum (window P hist) / inject_Z (Z.of_nat P)) in *.
  assert (Hm : 0 < m) by (apply average_positive; [assumption | lia | assumption]).
  assert (Hle : m <= c) by (apply average_le_bound; [assumption | lia | assumption]).
  assert (Hn : (0 <= round_half_even ((c - m) / m * inject_Z 100 * 100))%Z).
  { destruct (Z_lt_le_dec (round_half_even ((c - m) / m * inject_Z 100 * 100)) 0)
      as [Hneg|Hok]; [|assumption].
    apply round_half_even_neg in Hneg.
    assert (Hc : ~ c < m) by lra.
    pose proof (distance_not_negative c m Hm Hc). lra. }
  split; [rewrite Hb; now apply ltb_Fin_false|].
  unfold is_above, is_below. rewrite Hd. cbn [round2].
  rewrite geb_hundredths, ltb_hundredths.
  change 100 with (inject_Z 100) at 1 3.
  split; [now apply Z.leb_le | now apply Z.ltb_ge].
Qed.

Lemma X18_witness :
  exists r,
    process_ticker (constant_provider rising_history) 50 "TCS.NS"
    = Ok (Some r)
    /\ Below_MA r = false.
Proof.
  eexists. split; [vm_compute; reflexivity|].
  refine (proj1 (X18_period_high_is_not_below
                   (constant_provider rising_history) 50 "TCS.NS"
                   rising_history _ (Nat.lt_0_succ 49) eq_refl _ _ _)).
  - unfold positive_closes, rising_history. rewrite Forall_map.
    apply Forall_forall. intros i _. cbv beta. cbn [Hist.Close].
    change 0 with (inject_Z 0). rewrite <- Zlt_Qlt. lia.
  - vm_compute. repeat constructor; discriminate.
  - vm_compute. reflexivity.
Defined.

Lemma hundredths_ge (n : Z) : (-10000 <= n)%Z -> -100 <= n # 100.
Proof. intros H. unfold Qle. cbn. lia. Qed.

(** The stored percentage of a positive value against a positive base is at
    least -100. *)
Lemma percent_at_least_minus_100 (a b : Q) :
  0 < a -> 0 < b ->
  -100 <= round_half_even ((a - b) / b * 100 * 100) # 100.
Proof.
  intros Ha Hb. apply hundredths_ge.
  assert (H : -1 < (a - b) / b) by (apply Qlt_shift_div_l; lra).
  pose proof (round_half_even_lower ((a - b) / b * 100 * 100)) as L.
  set (n := round_half_even ((a - b) / b * 100 * 100)) in *.
  destruct (Z_lt_le_dec n (-10000)) as [Hlt|Hge]; [|assumption].
  assert (Hn : inject_Z n <= -10001).
  { change (-10001) with (inject_Z (-10001)). rewrite <- Zle_Qle. lia. }
  generalize dependent (inject_Z n). intros z L Hz.
  generalize dependent ((a - b) / b). intros t Ht L. lra.
Qed.

Lemma positive_last_close (hist : list Hist.point) :
  hist <> [] -> positive_closes hist -> 0 < last_close hist.
Proof.
  intros Hne Hpos. unfold last_close, closes.
  destruct (exists_last Hne) as (ys & y & ->).
  rewrite map_app. cbn [map]. rewrite last_last.
  unfold positive_closes in Hpos.
  apply Forall_app in Hpos. destruct Hpos as [_ Hy]. now inversion Hy.
Qed.

Lemma positive_first_close (hist : list Hist.point) :
  hist <> [] -> positive_closes hist -> 0 < first_close hist.
Proof.
  intros Hne Hpos. destruct hist as [|p hist]; [congruence|].
  now inversion Hpos.
Qed.

Lemma fle_Fin (a b : Q) : a <= b -> fle (Fin a) (Fin b).
Proof. intros H. unfold fle. cbn [leb]. now apply Qle_bool_iff. Qed.

(** X19: with positive prices and a period of at least one day, the stored
    distance and the stored price change of a row are numbers, not NaN, and
    neither is below -100. *)
Theorem X19_percentages_at_least_minus_100
  (yf : provider) (P : nat) (ticker : string) (hist : list Hist.point)
  (r : row) :
  (0 < P)%nat ->
  history yf ticker (P + 100) = Ok hist ->
  positive_closes hist ->
  process_ticker yf P ticker = Ok (Some r) ->
  fle (of_Z (-100)) (Distance_From_MA_pct r)
  /\ fle (of_Z (-100)) (Price_Change_pct r).
Proof.
  intros HP Hh Hpos Hr.
  destruct (process_ticker_numbers _ _ _ _ _ HP Hh Hr)
    as (L & _ & _ & _ & _ & Hd & _ & Hp).
  fold (window P hist) in Hd.
  assert (Hne : hist <> []) by (destruct hist; [cbn in L; lia | discriminate]).
  pose proof (positive_last_close hist Hne Hpos) as Hc.
  pose proof (positive_first_close hist Hne Hpos) as Hc0.
  pose proof (average_positive P hist HP (Nat.lt_le_incl _ _ L) Hpos) as Hm.
  assert (Z0 : Qzero (first_close hist) = false).
  { apply (proj2 (is_zero_Fin (first_close hist))). lra. }
  unfold np_div in Hp. cbn [sub ieee_div] in Hp. rewrite Z0 in Hp.
  cbn [mul of_Z round2] in Hp, Hd.
  rewrite Hd, Hp. unfold of_Z. change (inject_Z (-100)) with (-100).
  split; apply fle_Fin.
  - now apply percent_at_least_minus_100.
  - change (inject_Z 100) with 100. now apply percent_at_least_minus_100.
Qed.

Lemma X19_witness :
  exists r,
    process_ticker (constant_provider rising_history) 50 "TCS.NS"
    = Ok (Some r)
    /\ fle (of_Z (-100)) (Distance_From_MA_pct r)
    /\ fle (of_Z (-100)) (Price_Change_pct r).
Proof.
  eexists. split; [vm_compute; reflexivity|].
  refine (X19_percentages_at_least_minus_100
            (constant_provider rising_history) 50 "TCS.NS"
            rising_history _ (Nat.lt_0_succ 49) eq_refl _ _).
  - unfold positive_closes, rising_history. rewrite Forall_map.
    apply Forall_forall. intros i _. cbv beta. cbn [Hist.Close].
    change 0 with (inject_Z 0). rewrite <- Zlt_Qlt. lia.
  - vm_compute. reflexivity.
Defined.

Lemma constant_closes_ends (c : Q) (hist : list Hist.point) :
  hist <> [] ->
  Forall (fun p => Hist.Close p = c) hist ->
  last_close hist = c /\ first_close hist = c.
Proof.
  intros Hne H. split.
  - unfold last_close, closes.
    destruct (exists_last Hne) as (ys & y & ->).
    rewrite map_app. cbn [map]. rewrite last_last.
    apply Forall_app in H. destruct H as [_ Hy]. now inversion Hy.
  - destruct hist as [|p hist]; [congruence|]. now inversion H.
Qed.

Lemma round_half_even_0 (q : Q) : q == 0 -> round_half_even q = 0%Z.
Proof. intros H. now rewrite (round_half_even_comp q 0 H). Qed.

(** X20: a stock whose close was the same positive price on every day of
    the fetched window is stored with that price as its average, a distance
    of 0.00 and a change of 0.00, and is not flagged as below its average. *)
Theorem X20_constant_price_has_zero_distance
  (yf : provider) (P : nat) (ticker : string) (hist : list Hist.point)
  (c : Q) (r : row) :
  (0 < P)%nat ->
  history yf ticker (P + 100) = Ok hist ->
  0 < c ->
  Forall (fun p => Hist.Close p = c) hist ->
  process_ticker yf P ticker = Ok (Some r) ->
  Current_Price r = round2 (Fin c)
  /\ MA_200 r = round2 (Fin c)
  /\ Below_MA r = false
  /\ Distance_From_MA_pct r = Fin (0 # 100)
  /\ Price_Change_pct r = Fin (0 # 100).
Proof.
  intros HP Hh Hc Hall Hr.
  destruct (process_ticker_numbers _ _ _ _ _ HP Hh Hr)
    as (L & _ & Hcp & Hma & Hb & Hd & _ & Hp).
  fold (window P hist) in Hma, Hb, Hd.
  assert (Hne : hist <> []) by (destruct hist; [cbn in L; lia | discriminate]).
  destruct (constant_closes_ends c hist Hne Hall) as [Elast Efirst].
  rewrite Elast in Hcp, Hb, Hd, Hp. rewrite Efirst in Hp.
  assert (Hw : Forall (fun x => x = c) (window P hist)).
  { unfold window, lastn. apply Forall_skipn. unfold closes.
    now rewrite Forall_map. }
  assert (Em : Qsum (window P hist) / inject_Z (Z.of_nat P) == c).
  { apply Qle_antisym.
    - apply average_le_bound; [assumption | lia |].
      eapply Forall_impl; [|exact Hw]. intros x ->. apply Qle_refl.
    - apply average_ge_bound; [assumption | lia |].
      eapply Forall_impl; [|exact Hw]. intros x ->. apply Qle_refl. }
  set (m := Qsum (window P hist) / inject_Z (Z.of_nat P)) in *.
  assert (Zc : Qzero c = false) by (apply (proj2 (is_zero_Fin c)); lra).
  split; [assumption|]. split; [|split; [|split]].
  - rewrite Hma. cbn [round2]. f_equal. f_equal.
    apply round_half_even_comp. now rewrite Em.
  - rewrite Hb. apply ltb_Fin_false. rewrite Em. apply Qle_refl.
  - rewrite Hd. cbn [round2]. f_equal. f_equal.
    apply round_half_even_0. rewrite Em. field. lra.
  - rewrite Hp. unfold np_div. cbn [sub ieee_div]. rewrite Zc.
    cbn [mul of_Z round2]. f_equal. f_equal.
    apply round_half_even_0. change (inject_Z 100) with 100. field. lra.
Qed.

Lemma X20_witness :
  exists r,
    process_ticker (constant_provider (flat_history 100 51)) 50 "TCS.NS"
    = Ok (Some r)
    /\ Distance_From_MA_pct r = Fin (0 # 100).
Proof.
  eexists. split; [vm_compute; reflexivity|].
  refine (proj1 (proj2 (proj2 (proj2
           (X20_constant_price_has_zero_distance
              (constant_provider (flat_history 100 51)) 50 "TCS.NS"
              (flat_history 100 51) 100 _ (Nat.lt_0_succ 49) eq_refl
              _ _ _))))).
  - reflexivity.
  - unfold flat_history. apply Forall_forall. intros p Hp.
    apply repeat_spec in Hp. now subst p.
  - vm_compute. reflexivity.
Defined.
